(** * Incremental generation of the [.contentlayer] package

    A shallow embedding of
    [packages/@contentlayer/core/src/generation/generate-dotpkg.ts]:
    the file-name escaping, the planning of the generated files from a schema
    and a data cache, the write cache that skips files whose document hash is
    unchanged, and the per-snapshot generation pass.

    JavaScript strings are modelled as [string] (a list of bytes, the UTF-8
    encoding).  The two character tests of the source, the digits [0-9] and
    the slash, are ASCII, and an ASCII byte never occurs inside a multi-byte
    UTF-8 sequence, so testing bytes agrees with testing UTF-16 code units. *)

From Stdlib Require Import Ascii.
From stdpp Require Import base option list sorting strings pretty gmap.

(** ** File names ([idToFileName]) *)

(** The character class [[0-9]]. *)
Definition isDigit (c : ascii) : bool :=
  match Ascii.is_nat c with Some _ => true | None => false end.

(** [/^[0-9]/.test(str)] *)
Definition startsWithNumber (str : string) : bool :=
  match str with
  | String c _ => isDigit c
  | EmptyString => false
  end.

Definition leftPadWithUnderscoreIfStartsWithNumber (str : string) : string :=
  if startsWithNumber str then "_" +:+ str else str.

(** [str.replace(/\//g, '__')]: every slash, left to right, becomes two
    underscores; all other characters are kept. *)
Fixpoint replaceSlashes (str : string) : string :=
  match str with
  | EmptyString => EmptyString
  | String c rest =>
      if decide (c = "/"%char) then "__" +:+ replaceSlashes rest
      else String c (replaceSlashes rest)
  end.

Definition idToFileName (id : string) : string :=
  replaceSlashes (leftPadWithUnderscoreIfStartsWithNumber id).

(** The escaping in the words of the specification: cut the (possibly
    prefixed) identifier at its path separators and glue the pieces back with
    a double underscore. *)
Fixpoint splitOn (sep : ascii) (str : string) : list string :=
  match str with
  | EmptyString => [EmptyString]
  | String c rest =>
      if decide (c = sep) then EmptyString :: splitOn sep rest
      else match splitOn sep rest with
           | piece :: pieces => String c piece :: pieces
           | [] => [String c EmptyString]
           end
  end.

Definition prefixIfDigit (id : string) : string :=
  match id with
  | String c _ => if isDigit c then String "_" id else id
  | EmptyString => id
  end.

Definition escapedName_spec (id : string) : string :=
  String.concat "__" (splitOn "/" (prefixIfDigit id)).

Fixpoint hasChar (c : ascii) (str : string) : bool :=
  match str with
  | EmptyString => false
  | String c' rest => bool_decide (c' = c) || hasChar c rest
  end.

(** ** Data model

    The types of [DataCache.js], [schema/index.js] and [plugin.js] are only
    imported by the source; they are given here with the members that the
    source reads. *)

(** Plain JSON data, the values of the fields of a document. *)
#[local] Unset Elimination Schemes.
Inductive Json :=
  | JNull
  | JBool (b : bool)
  | JNumber (n : Z)
  | JString (s : string)
  | JArray (items : list Json)
  | JObject (members : list (string * Json)).
#[local] Set Elimination Schemes.

(** A document always has the string member [_id]; [fields] holds its other
    own properties. *)
Record Document := {
  _id : string;
  fields : list (string * Json)
}.

Fixpoint assoc {A} (key : string) (members : list (string * A)) : option A :=
  match members with
  | [] => None
  | (k, v) :: rest => if decide (k = key) then Some v else assoc key rest
  end.

(** [document[field]]; [None] is [undefined]. *)
Definition getField (document : Document) (field : string) : option Json :=
  if decide (field = "_id") then Some (JString (_id document))
  else assoc field (fields document).

(** [value === str] for a string [str]. *)
Definition strictEqualsString (value : option Json) (str : string) : bool :=
  match value with
  | Some (JString s) => bool_decide (s = str)
  | _ => false
  end.

Record DocumentTypeDef := {
  name : string;
  isSingleton : bool
}.

(** A JavaScript object used as a map is given by its entries in the order in
    which [Object.values] and [Object.keys] enumerate them. *)
Record SchemaDef := {
  documentTypeDefMap : list (string * DocumentTypeDef)
}.

Module DataCache.
Record CacheItem := {
  document : Document;
  documentHash : string
}.

Record Cache := {
  cacheItemsMap : list (string * CacheItem)
}.
End DataCache.

Record FieldOptions := {
  typeFieldName : string
}.

Record PluginOptions := {
  fieldOptions : FieldOptions
}.

Record GenerationOptions := {
  sourcePluginType : string;
  options : PluginOptions
}.

Record GenerateInfo := {
  documentCount : nat
}.

(** Values that the code throws, or that a promise is rejected with. *)
Inductive JsError :=
  | TypeError (message : string)
  | SystemError (code : string).

Inductive GenerateDotpkgError :=
  | UnknownFSError (error : JsError)
  | MkdirError
  | SourceProvideSchemaError
  | SourceFetchDataError.

(** The argument of the cached writer: [{ filePath, content, documentHash? }]. *)
Record FileToWrite := {
  filePath : string;
  content : string;
  documentHash : option string
}.

(** Calls of the file system made by the generation, in the order in which
    they take effect. *)
Inductive FsCall :=
  | Mkdir (dirPath : string)
  | WriteFile (path text : string).

(** ** The host

    What the source takes from Node, from npm packages and from the modules
    of the repository that it imports.  [path_join] is [path.join], the
    [JSON_stringify] functions are [JSON.stringify(_, null, 2)] at the types
    at which it is called, [camelCase] is
    [camelCase(_, { stripRegexp: /[^A-Z0-9\_]/gi })], and [CL_DEBUG] tells
    whether [process.env['CL_DEBUG']] is a string that is not empty.  The two
    [fsPromise_] functions give the new state of the file system and the
    error the promise is rejected with, if any. *)
Class Host := {
  FS : Type;
  fsPromise_writeFile : string → string → FS → FS * option JsError;
  fsPromise_mkdir : string → FS → FS * option JsError;
  path_join : list string → string;
  JSON_stringify_document : Document → string;
  JSON_stringify_schema : SchemaDef → string;
  JSON_stringify_cache : DataCache.Cache → string;
  JSON_stringify : Json → string;
  autogeneratedNote : string;
  renderTypes : SchemaDef → GenerationOptions → string;
  camelCase : string → string;
  lowercaseFirstChar : string → string;
  uppercaseFirstChar : string → string;
  singularize : string → string;
  pluralize : string → string;
  CL_DEBUG : bool
}.

(** ** Code that may throw *)

Definition Throws (A : Type) : Type := JsError + A.

Definition mapThrows {A B} (f : A → Throws B) : list A → Throws (list B) :=
  fix go (l : list A) : Throws (list B) :=
    match l with
    | [] => inr []
    | x :: rest =>
        match f x with
        | inl e => inl e
        | inr y => match go rest with
                   | inl e => inl e
                   | inr ys => inr (y :: ys)
                   end
        end
    end.

Definition newline : string := String "010"%char EmptyString.

(** [array.join(sep)] *)
Definition join (sep : string) (pieces : list string) : string :=
  String.concat sep pieces.

Section Planning.
Context `{Host}.

(** ** Planning the files ([writeFilesForCache_], lines 139-157) *)

Definition getDataVariableName (docDef : DocumentTypeDef) : string :=
  if isSingleton docDef
  then lowercaseFirstChar (singularize (name docDef))
  else "all" +:+ uppercaseFirstChar (pluralize (name docDef)).

(** [flow(idToFileName, (_) => camelCase(_, ...))] *)
Definition makeVariableName (id : string) : string :=
  camelCase (idToFileName id).

(** With no document, [documentIds[0]] is [undefined]:
    [leftPadWithUnderscoreIfStartsWithNumber] hands it back (the test is
    made on the text ["undefined"]), and calling [replace] on it throws. *)
Definition makeDataExportFile (docDef : DocumentTypeDef) (documentIds : list string)
  : Throws string :=
  let dataVariableName := getDataVariableName docDef in
  if isSingleton docDef then
    match documentIds !! 0%nat with
    | None => inl (TypeError "Cannot read properties of undefined (reading 'replace')")
    | Some documentId =>
        inr ("// " +:+ autogeneratedNote +:+ newline
             +:+ "export { default as " +:+ dataVariableName +:+ " } from './"
             +:+ name docDef +:+ "/" +:+ idToFileName documentId +:+ ".json'" +:+ newline)
    end
  else
    let docImports :=
      join newline
        (map (λ id, "import " +:+ makeVariableName id +:+ " from './"
                    +:+ name docDef +:+ "/" +:+ idToFileName id +:+ ".json'")
             documentIds) in
    inr ("// " +:+ autogeneratedNote +:+ newline
         +:+ newline
         +:+ docImports +:+ newline
         +:+ newline
         +:+ "export const " +:+ dataVariableName +:+ " = ["
         +:+ join ", " (map makeVariableName documentIds) +:+ "]" +:+ newline).

Definition makeIndexJs (schemaDef : SchemaDef) : string :=
  let dataVariableNames :=
    map (λ docDef, (docDef, getDataVariableName docDef))
        (map snd (documentTypeDefMap schemaDef)) in
  let constReexports :=
    join newline
      (map (λ '(_, dataVariableName), "export * from './" +:+ dataVariableName +:+ ".mjs'")
           dataVariableNames) in
  let constImportsForAllDocuments :=
    join newline
      (map (λ '(_, dataVariableName),
              "import { " +:+ dataVariableName +:+ " } from './" +:+ dataVariableName +:+ ".mjs'")
           dataVariableNames) in
  let allDocuments :=
    join ", "
      (map (λ '(docDef, dataVariableName),
              if isSingleton docDef then dataVariableName else "..." +:+ dataVariableName)
           dataVariableNames) in
  "// " +:+ autogeneratedNote +:+ newline
  +:+ newline
  +:+ "export { isType } from 'contentlayer/client'" +:+ newline
  +:+ newline
  +:+ constReexports +:+ newline
  +:+ constImportsForAllDocuments +:+ newline
  +:+ newline
  +:+ "export const allDocuments = [" +:+ allDocuments +:+ "]" +:+ newline.

Definition makeHelperTypes : string :=
  "// " +:+ autogeneratedNote +:+ newline
  +:+ newline
  +:+ "export { isType } from 'contentlayer/client'" +:+ newline.

Definition makeDataTypes (schemaDef : SchemaDef) : string :=
  let documentDefs := map snd (documentTypeDefMap schemaDef) in
  let dataConsts :=
    join newline
      (map (λ docDef,
              "export declare const " +:+ getDataVariableName docDef +:+ ": "
              +:+ name docDef +:+ (if isSingleton docDef then "" else "[]"))
           documentDefs) in
  let documentTypeNames := join ", " (map name documentDefs) in
  "// " +:+ autogeneratedNote +:+ newline
  +:+ newline
  +:+ "import { " +:+ documentTypeNames +:+ ", DocumentTypes } from '../types'" +:+ newline
  +:+ newline
  +:+ dataConsts +:+ newline
  +:+ newline
  +:+ "export declare const allDocuments: DocumentTypes[]" +:+ newline
  +:+ newline.

Definition packageJson : Json :=
  JObject [
    ("name", JString "dot-contentlayer");
    ("description", JString "This package is auto-generated by Contentlayer");
    ("version", JString "0.0.0");
    ("exports", JObject [
       ("./data", JObject [("import", JString "./data/index.mjs")]);
       ("./types", JObject [("import", JString "./types/index.mjs")])]);
    ("typesVersions", JObject [
       ("*", JObject [
          ("data", JArray [JString "./data"]);
          ("types", JArray [JString "./types"])])])
  ].

Definition makePackageJson : string := JSON_stringify packageJson.

Definition withPrefix (targetPath : string) (path_ : list string) : string :=
  path_join (targetPath :: path_).

(** [allDocuments.filter((_) => _[typeNameField] === docDef.name).map((_) => _._id)] *)
Definition documentIdsOfType (typeNameField : string) (docDef : DocumentTypeDef)
    (allDocuments : list Document) : list string :=
  map _id
    (List.filter (λ d, strictEqualsString (getField d typeNameField) (name docDef))
                 allDocuments).

Definition dataBarrelFile (targetPath typeNameField : string)
    (allDocuments : list Document) (docDef : DocumentTypeDef) : Throws FileToWrite :=
  match makeDataExportFile docDef (documentIdsOfType typeNameField docDef allDocuments) with
  | inl e => inl e
  | inr text =>
      inr {| filePath := withPrefix targetPath ["data"; getDataVariableName docDef +:+ ".mjs"];
             content := text;
             documentHash := None |}
  end.

(** [path.join] throws when an argument is not a string. *)
Definition dataJsonFile (targetPath typeNameField : string)
    (item : DataCache.CacheItem) : Throws FileToWrite :=
  let document := DataCache.document item in
  match getField document typeNameField with
  | Some (JString typeName) =>
      inr {| filePath := withPrefix targetPath
                           ["data"; typeName; idToFileName (_id document) +:+ ".json"];
             content := JSON_stringify_document document;
             documentHash := Some (DataCache.documentHash item) |}
  | _ => inl (TypeError "The 'path' argument must be of type string")
  end.

Definition dataBarrelFiles (schemaDef : SchemaDef) (cache : DataCache.Cache)
    (targetPath : string) (generationOptions : GenerationOptions)
  : Throws (list FileToWrite) :=
  let allCacheItems := map snd (DataCache.cacheItemsMap cache) in
  let allDocuments := map DataCache.document allCacheItems in
  let documentDefs := map snd (documentTypeDefMap schemaDef) in
  let typeNameField := typeFieldName (fieldOptions (options generationOptions)) in
  mapThrows (dataBarrelFile targetPath typeNameField allDocuments) documentDefs.

Definition dataJsonFiles (cache : DataCache.Cache)
    (targetPath : string) (generationOptions : GenerationOptions)
  : Throws (list FileToWrite) :=
  let allCacheItems := map snd (DataCache.cacheItemsMap cache) in
  let typeNameField := typeFieldName (fieldOptions (options generationOptions)) in
  mapThrows (dataJsonFile targetPath typeNameField) allCacheItems.

(** The value of the type field of a document, when it is a string. *)
Definition typeNameOf (typeNameField : string) (document : Document) : option string :=
  match getField document typeNameField with
  | Some (JString typeName) => Some typeName
  | _ => None
  end.

Definition dataDirPaths (schemaDef : SchemaDef) (targetPath : string) : list string :=
  map (λ docDef, withPrefix targetPath ["data"; name docDef])
      (map snd (documentTypeDefMap schemaDef)).

(** The five files that do not depend on the documents (lines 165-172). *)
Definition staticFiles (schemaDef : SchemaDef) (targetPath : string)
    (generationOptions : GenerationOptions) : list FileToWrite :=
  [ {| filePath := withPrefix targetPath ["package.json"];
       content := makePackageJson; documentHash := None |};
    {| filePath := withPrefix targetPath ["types"; "index.d.ts"];
       content := renderTypes schemaDef generationOptions; documentHash := None |};
    {| filePath := withPrefix targetPath ["types"; "index.mjs"];
       content := makeHelperTypes; documentHash := None |};
    {| filePath := withPrefix targetPath ["data"; "index.d.ts"];
       content := makeDataTypes schemaDef; documentHash := None |};
    {| filePath := withPrefix targetPath ["data"; "index.mjs"];
       content := makeIndexJs schemaDef; documentHash := None |} ].

(** Everything handed to the cached writer, in the order of the array of
    line 164; the barrels are computed before the data files, so their
    error comes first. *)
Definition filesToWrite (schemaDef : SchemaDef) (cache : DataCache.Cache)
    (targetPath : string) (generationOptions : GenerationOptions)
  : Throws (list FileToWrite) :=
  match dataBarrelFiles schemaDef cache targetPath generationOptions with
  | inl e => inl e
  | inr barrels =>
      match dataJsonFiles cache targetPath generationOptions with
      | inl e => inl e
      | inr jsons =>
          inr (staticFiles schemaDef targetPath generationOptions ++ barrels ++ jsons)
      end
  end.

End Planning.

(** ** Effects

    The generation acts on the file system and on [writtenFilesCache], the
    object created once by [generateDotpkgStream] and handed by reference to
    every pass.  The cache is declared as [Record<FilePath, DocumentHash>] and
    is modelled as a finite map from paths to hashes; a plain object agrees
    with it on every key but [__proto__], which is not the path of a
    generated file.  [journal] lists the calls of the file system made so
    far. *)

Section Writing.
Context `{Host}.

Record World := {
  disk : FS;
  journal : list FsCall;
  writtenFilesCache : gmap string string
}.

(** A computation that may throw; the world it has reached is kept in
    either case. *)
Definition Effect (A : Type) : Type := World → Throws A * World.

Definition ret {A} (a : A) : Effect A := λ w, (inr a, w).

Definition bind {A B} (m : Effect A) (k : A → Effect B) : Effect B :=
  λ w, match m w with
       | (inl e, w') => (inl e, w')
       | (inr a, w') => k a w'
       end.

Definition liftThrows {A} (r : Throws A) : Effect A := λ w, (r, w).

Notation "'const' x ← m ;; k" := (bind m (λ x, k))
  (at level 10, x name, m at level 99, k at level 200, only parsing).
Notation "'await' m ;; k" := (bind m (λ _, k))
  (at level 10, m at level 99, k at level 200, only parsing).

(** [await fsPromise.writeFile(path, text, 'utf8')] *)
Definition fs_writeFile (path text : string) : Effect unit :=
  λ w, let '(disk', rejected) := fsPromise_writeFile path text (disk w) in
       (match rejected with Some e => inl e | None => inr () end,
        {| disk := disk';
           journal := journal w ++ [WriteFile path text];
           writtenFilesCache := writtenFilesCache w |}).

(** [await fsPromise.mkdir(dirPath, { recursive: true })] *)
Definition fs_mkdir (dirPath : string) : Effect unit :=
  λ w, let '(disk', rejected) := fsPromise_mkdir dirPath (disk w) in
       (match rejected with Some e => inl e | None => inr () end,
        {| disk := disk';
           journal := journal w ++ [Mkdir dirPath];
           writtenFilesCache := writtenFilesCache w |}).

(** [e.code !== 'EEXIST'] *)
Definition codeIsNotEEXIST (e : JsError) : bool :=
  match e with
  | SystemError code => negb (bool_decide (code = "EEXIST"))
  | TypeError _ => true
  end.

Definition mkdir (dirPath : string) : Effect unit :=
  λ w, match fs_mkdir dirPath w with
       | (inl e, w') => if codeIsNotEEXIST e then (inl e, w') else (inr (), w')
       | (inr _, w') => (inr (), w')
       end.

(** *** The cached writer ([writeFileWithWrittenFilesCache]) *)

(** [documentHash !== undefined && writtenFilesCache[filePath] === documentHash] *)
Definition fileIsUpToDate (cache : gmap string string) (file : FileToWrite) : bool :=
  match documentHash file with
  | Some hash => bool_decide (cache !! filePath file = Some hash)
  | None => false
  end.

(** The test [if (documentHash)]: a string that is not empty. *)
Definition isTruthy (str : string) : bool := negb (bool_decide (str = "")).

(** Lines 233-235. *)
Definition recordWrittenFile (file : FileToWrite) : Effect unit :=
  λ w, match documentHash file with
       | Some hash =>
           if isTruthy hash
           then (inr (), {| disk := disk w;
                            journal := journal w;
                            writtenFilesCache := <[filePath file := hash]> (writtenFilesCache w) |})
           else (inr (), w)
       | None => (inr (), w)
       end.

(** Lines 232-235, what a call does once it has found the file out of
    date: the write, and after the write has succeeded the recording. *)
Definition writeThenRecord (file : FileToWrite) : Effect unit :=
  await fs_writeFile (filePath file) (content file) ;;
  recordWrittenFile file.

(** One call, run to its end. *)
Definition writeFileWithWrittenFilesCache (file : FileToWrite) : Effect unit :=
  λ w, if fileIsUpToDate (writtenFilesCache w) file then (inr (), w)
       else writeThenRecord file w.

(** *** Concurrent calls ([Promise.all])

    The elements of the array given to [Promise.all] are evaluated one
    after the other, each call running up to its first [await]: every file
    is compared with the cache before any write has completed.  The writes
    then complete in an order chosen by the file system; [order] picks, at
    each step, which of the pending calls completes next. *)

Fixpoint completionOrder {A} (fuel : nat) (order : list nat) (pending : list A) : list A :=
  match fuel with
  | O => []
  | S fuel' =>
      let k := (hd 0 order `mod` length pending)%nat in
      match pending !! k with
      | Some next => next :: completionOrder fuel' (tl order) (delete k pending)
      | None => []
      end
  end.

(** All pending calls run to their end, also after one of them has failed;
    the error kept is the first one. *)
Fixpoint settle (pending : list (Effect unit)) (w : World) : option JsError * World :=
  match pending with
  | [] => (None, w)
  | call :: rest =>
      let '(r, w1) := call w in
      let '(r', w2) := settle rest w1 in
      (match r with inl e => Some e | inr _ => r' end, w2)
  end.

Definition Promise_all (order : list nat) (pending : list (Effect unit)) : Effect unit :=
  λ w, let '(r, w') := settle (completionOrder (length pending) order pending) w in
       (match r with Some e => inl e | None => inr () end, w').

(** The calls that reach [fsPromise.writeFile]. *)
Definition startedWrites (cache : gmap string string) (files : list FileToWrite)
  : list FileToWrite :=
  List.filter (λ file, negb (fileIsUpToDate cache file)) files.

(** [await Promise.all([writeFile(...), ...])], lines 164-175. *)
Definition writeAll (order : list nat) (files : list FileToWrite) : Effect unit :=
  λ w, Promise_all order (map writeThenRecord (startedWrites (writtenFilesCache w) files)) w.

(** *** One pass ([writeFilesForCache_]) *)

Record Schedule := {
  mkdirOrder : list nat;
  writeOrder : list nat
}.

Record WriteParams := {
  schemaDef : SchemaDef;
  cache : DataCache.Cache;
  targetPath : string;
  generationOptions : GenerationOptions
}.

(** Lines 132-137. *)
Definition debugDump (params : WriteParams) : Effect unit :=
  if CL_DEBUG then
    await fs_mkdir (withPrefix (targetPath params) ["cache"]) ;;
    await fs_writeFile (withPrefix (targetPath params) ["cache"; "schema.json"])
                       (JSON_stringify_schema (schemaDef params)) ;;
    fs_writeFile (withPrefix (targetPath params) ["cache"; "data-cache.json"])
                 (JSON_stringify_cache (cache params))
  else ret ().

Definition writeFilesForCache_ (schedule : Schedule) (params : WriteParams) : Effect unit :=
  await debugDump params ;;
  const files ← liftThrows (filesToWrite (schemaDef params) (cache params)
                                         (targetPath params) (generationOptions params)) ;;
  await Promise_all (mkdirOrder schedule)
          (map mkdir (withPrefix (targetPath params) ["types"]
                      :: dataDirPaths (schemaDef params) (targetPath params))) ;;
  writeAll (writeOrder schedule) files.

(** [T.tryCatchPromise] and [T.either]: the outcome as a value. *)
Definition writeFilesForCache (schedule : Schedule) (params : WriteParams)
  : World → (GenerateDotpkgError + unit) * World :=
  λ w, match writeFilesForCache_ schedule params w with
       | (inl error, w') => (inl (UnknownFSError error), w')
       | (inr _, w') => (inr (), w')
       end.

(** The function given to [S.mapEffectEitherRight] (lines 88-93): what is
    done for one snapshot delivered by the source. *)
Definition generateForCache (schedule : Schedule) (params : WriteParams)
  : World → (GenerateDotpkgError + GenerateInfo) * World :=
  λ w, match writeFilesForCache schedule params w with
       | (inl e, w') => (inl e, w')
       | (inr _, w') =>
           (inr {| documentCount := length (DataCache.cacheItemsMap (cache params)) |}, w')
       end.

(** *** The stream of passes ([generateDotpkgStream]) *)

(** An element of the stream of [source.fetchData], with the order in
    which the file system completes the calls of the pass made for it. *)
Record Fetched := {
  fetchedCache : GenerateDotpkgError + DataCache.Cache;
  schedule : Schedule
}.

Fixpoint runPasses (schemaDef : SchemaDef) (targetPath : string)
    (generationOptions : GenerationOptions) (stream : list Fetched) (w : World)
  : list (GenerateDotpkgError + GenerateInfo) * World :=
  match stream with
  | [] => ([], w)
  | fetched :: rest =>
      let '(outcome, w1) :=
        match fetchedCache fetched with
        | inl e => (inl e, w)
        | inr cache =>
            generateForCache (schedule fetched)
              {| schemaDef := schemaDef; cache := cache; targetPath := targetPath;
                 generationOptions := generationOptions |} w
        end in
      let '(outcomes, w2) := runPasses schemaDef targetPath generationOptions rest w1 in
      (outcome :: outcomes, w2)
  end.

Definition generateDotpkgStream
    (resolveParams : GenerateDotpkgError + SchemaDef * string)
    (generationOptions : GenerationOptions) (stream : list Fetched) (disk0 : FS)
  : list (GenerateDotpkgError + GenerateInfo) * World :=
  let w0 := {| disk := disk0; journal := []; writtenFilesCache := ∅ |} in
  match resolveParams with
  | inl e => ([inl e], w0)
  | inr (schemaDef, targetPath) => runPasses schemaDef targetPath generationOptions stream w0
  end.

(** *** Observations on the journal *)

Definition isWriteTo (path : string) (call : FsCall) : bool :=
  match call with
  | WriteFile path' _ => bool_decide (path' = path)
  | Mkdir _ => false
  end.

(** How many times [path] has been written. *)
Definition writesTo (path : string) (calls : list FsCall) : nat :=
  length (List.filter (isWriteTo path) calls).

Definition filesAt (path : string) (files : list FileToWrite) : list FileToWrite :=
  List.filter (λ file, bool_decide (filePath file = path)) files.

(** The call of the file system made for a file. *)
Definition writeCall (file : FileToWrite) : FsCall :=
  WriteFile (filePath file) (content file).

(** The calls made between two worlds of one run. *)
Definition callsSince (before after : World) : list FsCall :=
  drop (length (journal before)) (journal after).

(** The cache after the write of [file] has succeeded. *)
Definition recorded (cache : gmap string string) (file : FileToWrite) : gmap string string :=
  match documentHash file with
  | Some hash => if isTruthy hash then <[filePath file := hash]> cache else cache
  | None => cache
  end.


(** No path is recorded with the empty hash. *)
Definition hashesAreTruthy (cache : gmap string string) : Prop :=
  ∀ path hash, cache !! path = Some hash → hash ≠ "".

(** The two files of the debug dump, when it is made. *)
Definition debugDumpPaths (params : WriteParams) : list string :=
  if CL_DEBUG
  then [withPrefix (targetPath params) ["cache"; "schema.json"];
        withPrefix (targetPath params) ["cache"; "data-cache.json"]]
  else [].

Definition plannedFiles (params : WriteParams) : Throws (list FileToWrite) :=
  filesToWrite (schemaDef params) (cache params) (targetPath params)
               (generationOptions params).

(** What holds of the world in which the writes of a pass start, and of the
    world in which a pass stops when it fails before them: the cache is the
    one the pass began with, and nothing has been written except the debug
    dump. *)
Definition beforeWriting (params : WriteParams) (w w' : World) : Prop :=
  writtenFilesCache w' = writtenFilesCache w
  ∧ ∃ calls, journal w' = journal w ++ calls
             ∧ ∀ path, path ∉ debugDumpPaths params → writesTo path calls = 0%nat.

End Writing.

(** ** A host to run the model on

    A small file system in which every path below [/ro/] rejects writes, a
    [path.join] for segments that are already normalized, and plain stand-ins
    for the text functions.  It serves to evaluate the model on concrete
    inputs; no general statement depends on it. *)

Module Demo.

Definition readOnly (path : string) : bool :=
  bool_decide (String.prefix "/ro/" path = true).

Definition quote (s : string) : string :=
  String "034"%char (s +:+ String "034"%char EmptyString).

Fixpoint printJson (indent : string) (value : Json) : string :=
  match value with
  | JNull => "null"
  | JBool b => if b then "true" else "false"
  | JNumber n => pretty n
  | JString s => quote s
  | JArray [] => "[]"
  | JArray items =>
      "[" +:+ newline
      +:+ join ("," +:+ newline)
            (map (λ item, "  " +:+ indent +:+ printJson ("  " +:+ indent) item) items)
      +:+ newline +:+ indent +:+ "]"
  | JObject [] => "{}"
  | JObject members =>
      "{" +:+ newline
      +:+ join ("," +:+ newline)
            (map (λ member, "  " +:+ indent +:+ quote (fst member) +:+ ": "
                            +:+ printJson ("  " +:+ indent) (snd member)) members)
      +:+ newline +:+ indent +:+ "}"
  end.

Definition documentJson (document : Document) : Json :=
  JObject (("_id", JString (_id document)) :: fields document).

Definition host : Host := {|
  FS := gmap string string;
  fsPromise_writeFile path text files :=
    if readOnly path then (files, Some (SystemError "EROFS"))
    else (<[path := text]> files, None);
  fsPromise_mkdir dirPath files := (files, None);
  path_join := join "/";
  JSON_stringify_document document := printJson "" (documentJson document);
  JSON_stringify_schema schemaDef := "{}";
  JSON_stringify_cache cache := "{}";
  JSON_stringify := printJson "";
  autogeneratedNote := "NOTE This file is auto-generated by Contentlayer";
  renderTypes schemaDef generationOptions := "";
  camelCase str := str;
  lowercaseFirstChar str := str;
  uppercaseFirstChar str := str;
  singularize str := str;
  pluralize str := str +:+ "s";
  CL_DEBUG := false
|}.

Definition generation : GenerationOptions :=
  {| sourcePluginType := "local";
     options := {| fieldOptions := {| typeFieldName := "type" |} |} |}.

Definition post (id body : string) : Document :=
  {| _id := id; fields := [("type", JString "Post"); ("body", JString body)] |}.

Definition item (document : Document) (hash : string) : string * DataCache.CacheItem :=
  (_id document, {| DataCache.document := document; DataCache.documentHash := hash |}).

Definition posts : SchemaDef :=
  {| documentTypeDefMap := [("Post", {| name := "Post"; isSingleton := false |})] |}.

Definition settings : SchemaDef :=
  {| documentTypeDefMap := [("Settings", {| name := "Settings"; isSingleton := true |})] |}.

Definition inOrder : Schedule := {| mkdirOrder := []; writeOrder := [] |}.

Definition start : World (H := host) :=
  @Build_World host (∅ : gmap string string) [] ∅.

Definition params (schemaDef : SchemaDef) (targetPath : string)
    (items : list (string * DataCache.CacheItem)) : WriteParams :=
  {| schemaDef := schemaDef;
     cache := {| DataCache.cacheItemsMap := items |};
     targetPath := targetPath;
     generationOptions := generation |}.


Definition documentsOf (items : list (string * DataCache.CacheItem)) : list Document :=
  map DataCache.document (map snd items).


(** Two posts whose identifiers are escaped to the same file name. *)
Definition collidingItems : list (string * DataCache.CacheItem) :=
  [item (post "a/b" "nested") "hash-1"; item (post "a__b" "flat") "hash-2"].

(** Two snapshots of two posts; between them the second post changes. *)
Definition firstItems : list (string * DataCache.CacheItem) :=
  [item (post "a" "text") "hash-a"; item (post "2024/b" "draft") "hash-b1"].

Definition secondItems : list (string * DataCache.CacheItem) :=
  [item (post "a" "text") "hash-a"; item (post "2024/b" "final") "hash-b2"].

(** A post whose hash is the empty string. *)
Definition unhashedItems : list (string * DataCache.CacheItem) :=
  [item (post "a" "text") ""].

(** A document of a type that the schema does not define. *)
Definition strayItems : list (string * DataCache.CacheItem) :=
  [item {| _id := "notes/x"; fields := [("type", JString "Note")] |} "hash-x"].

Definition passAt (targetPath : string) (items : list (string * DataCache.CacheItem))
    (w : World (H := host)) : (GenerateDotpkgError + GenerateInfo) * World (H := host) :=
  generateForCache inOrder (params posts targetPath items) w.

Definition pass (items : list (string * DataCache.CacheItem)) (w : World (H := host))
  : (GenerateDotpkgError + GenerateInfo) * World (H := host) :=
  passAt "/out" items w.

Definition firstWorld : World (H := host) := (pass firstItems start).2.


Definition settingsType : DocumentTypeDef := {| name := "Settings"; isSingleton := true |}.

Definition cacheOf (items : list (string * DataCache.CacheItem)) : DataCache.Cache :=
  {| DataCache.cacheItemsMap := items |}.

(** The source delivers the first snapshot, fails once, and delivers the
    second snapshot. *)
Definition fetchedStream : list Fetched :=
  [ {| fetchedCache := inr (cacheOf firstItems); schedule := inOrder |};
    {| fetchedCache := inl SourceFetchDataError; schedule := inOrder |};
    {| fetchedCache := inr (cacheOf secondItems); schedule := inOrder |} ].

Definition fileOf (path text : string) (hash : string) : FileToWrite :=
  {| filePath := path; content := text; documentHash := Some hash |}.

(** The plan of a pass, and its file at a path. *)
Definition planned (params : WriteParams) : list FileToWrite :=
  match plannedFiles (H := host) params with
  | inr files => files
  | inl _ => []
  end.

Definition plannedAt (params : WriteParams) (path : string) : FileToWrite :=
  match filesAt path (planned params) with
  | file :: _ => file
  | [] => {| filePath := path; content := ""; documentHash := None |}
  end.

Definition dataPaths (files : Throws (list FileToWrite)) : list string :=
  match files with
  | inr files => map filePath files
  | inl _ => []
  end.

End Demo.

(** ** Tactics *)

(** Two equations for the plan of one pass give the same files. *)
Ltac same_plan Hplan Hplan' :=
  rewrite Hplan in Hplan'; injection Hplan' as <-.

(** Evaluate both sides of a goal on a concrete input. *)
Ltac by_evaluation := vm_compute; reflexivity.

(** ** Further observations *)

(** How often a character occurs in a string. *)
Fixpoint countChar (c : ascii) (str : string) : nat :=
  match str with
  | EmptyString => 0
  | String c' rest => (if decide (c' = c) then 1 else 0) + countChar c rest
  end.

(** Whether a string begins with a character. *)
Definition startsWithChar (c : ascii) (str : string) : bool :=
  match str with
  | String c' _ => bool_decide (c' = c)
  | EmptyString => false
  end.

(** What the barrels read of a document: its identifier and the value of its
    type field. *)
Definition documentKey (typeNameField : string) (document : Document)
  : string * option Json :=
  (_id document, getField document typeNameField).



(** ** More hosts to run the model on

    A file system whose writes always succeed and whose [mkdir] has the same
    outcome for every directory, with or without the debug dump; the text
    functions are those of [Demo]. *)

Module Scenes.

Definition hostWith (mkdirRejection : option JsError) (debug : bool) : Host := {|
  FS := gmap string string;
  fsPromise_writeFile path text files := (<[path := text]> files, None);
  fsPromise_mkdir dirPath files := (files, mkdirRejection);
  path_join := join "/";
  JSON_stringify_document := JSON_stringify_document (Host := Demo.host);
  JSON_stringify_schema schemaDef := "{}";
  JSON_stringify_cache cache := "{}";
  JSON_stringify := Demo.printJson "";
  autogeneratedNote := "NOTE This file is auto-generated by Contentlayer";
  renderTypes schemaDef generationOptions := "";
  camelCase str := str;
  lowercaseFirstChar str := str;
  uppercaseFirstChar str := str;
  singularize str := str;
  pluralize str := str +:+ "s";
  CL_DEBUG := debug
|}.

(** Every directory exists already. *)
Definition existing : Host := hostWith (Some (SystemError "EEXIST")) false.

(** No directory can be made. *)
Definition locked : Host := hostWith (Some (SystemError "EACCES")) false.

(** The debug dump is made. *)
Definition debugging : Host := hostWith None true.

(** The debug dump is asked for, and its directory is reported to exist. *)
Definition debuggingExisting : Host := hostWith (Some (SystemError "EEXIST")) true.

Definition start (mkdirRejection : option JsError) (debug : bool)
  : World (H := hostWith mkdirRejection debug) :=
  @Build_World (hostWith mkdirRejection debug) (∅ : gmap string string) [] ∅.

Definition pass (mkdirRejection : option JsError) (debug : bool)
    (items : list (string * DataCache.CacheItem))
  : (GenerateDotpkgError + GenerateInfo) * World (H := hostWith mkdirRejection debug) :=
  generateForCache Demo.inOrder (Demo.params Demo.posts "/out" items)
                   (start mkdirRejection debug).

(** The writes complete last to first. *)
Definition lastFirst : Schedule :=
  {| mkdirOrder := []; writeOrder := [7; 6; 5; 4; 3; 2; 1; 0]%nat |}.

(** Two documents of the singleton type [Settings], and an error of the
    source. *)
Definition settingsMain : Document :=
  {| _id := "settings/main"; fields := [("type", JString "Settings")] |}.

Definition settingsOther : Document :=
  {| _id := "settings/other"; fields := [("type", JString "Settings")] |}.


(** The first post of [Demo.firstItems] under another identifier, with the
    same content and hash. *)
Definition renamedItems : list (string * DataCache.CacheItem) :=
  [Demo.item (Demo.post "moved/a" "text") "hash-a";
   Demo.item (Demo.post "2024/b" "draft") "hash-b1"].

End Scenes.

(** Settle an equation between closed terms by evaluating its two sides, and
    a decidable proposition by evaluating its decision. *)
Ltac evaluated :=
  lazymatch goal with
  | |- @eq ?A _ ?y => vm_cast_no_check (@eq_refl A y)
  end.

Ltac decided := apply (bool_decide_unpack _); vm_cast_no_check I.
Example idToFileName_plain : idToFileName "a" = "a".
Proof. reflexivity. Qed.

Example idToFileName_nested : idToFileName "posts/2021/hello.md" = "posts__2021__hello.md".
Proof. reflexivity. Qed.

Lemma splitOn_nonempty sep str : splitOn sep str ≠ [].
Proof.
  destruct str as [|c rest]; simpl; [done|].
  case_decide; [done|]. by destruct (splitOn sep rest).
Qed.

Lemma concat_cons_piece sep c piece pieces :
  String.concat sep (String c piece :: pieces) = String c (String.concat sep (piece :: pieces)).
Proof. destruct pieces; reflexivity. Qed.

Lemma replaceSlashes_split str :
  replaceSlashes str = String.concat "__" (splitOn "/" str).
Proof.
  induction str as [|c rest IH]; simpl; [done|].
  case_decide as Hc.
  - rewrite IH. pose proof (splitOn_nonempty "/" rest) as Hne.
    destruct (splitOn "/" rest) as [|piece pieces]; [done|]. reflexivity.
  - pose proof (splitOn_nonempty "/" rest) as Hne.
    destruct (splitOn "/" rest) as [|piece pieces]; [done|].
    by rewrite concat_cons_piece, IH.
Qed.

Lemma leftPad_prefixIfDigit id :
  leftPadWithUnderscoreIfStartsWithNumber id = prefixIfDigit id.
Proof.
  unfold leftPadWithUnderscoreIfStartsWithNumber, prefixIfDigit, startsWithNumber.
  destruct id as [|c rest]; [done|]. by destruct (isDigit c).
Qed.

Lemma replaceSlashes_no_slash str : hasChar "/" (replaceSlashes str) = false.
Proof.
  induction str as [|c rest IH]; simpl; [done|].
  case_decide as Hc; simpl; [done|].
  rewrite IH. by rewrite bool_decide_eq_false_2.
Qed.

(** C7: the data file name of a document identifier is obtained by the two
    escaping rules in this order: an underscore is put in front when the
    identifier begins with a digit, then every slash of the (possibly
    prefixed) identifier is replaced by a double underscore; the result
    contains no slash, and ['2024/b'] becomes ['_2024__b']. *)
Theorem idToFileName_two_rules :
  (∀ id : string,
      idToFileName id = escapedName_spec id
      ∧ idToFileName id = replaceSlashes (if startsWithNumber id then "_" +:+ id else id)
      ∧ hasChar "/" (idToFileName id) = false)
  ∧ idToFileName "2024/b" = "_2024__b".
Proof.
  split; [|reflexivity].
  intros id. split; [|split].
  - unfold idToFileName, escapedName_spec.
    by rewrite replaceSlashes_split, leftPad_prefixIfDigit.
  - reflexivity.
  - apply replaceSlashes_no_slash.
Qed.

(** *** Where the escaping is injective *)

Lemma replaceSlashes_slash rest :
  replaceSlashes (String "/" rest) = String "_" (String "_" (replaceSlashes rest)).
Proof. reflexivity. Qed.

Lemma replaceSlashes_other c rest :
  c ≠ "/"%char → replaceSlashes (String c rest) = String c (replaceSlashes rest).
Proof. intros Hc. simpl. by rewrite decide_False. Qed.

Lemma hasChar_cons c c' rest :
  hasChar c (String c' rest) = false → c' ≠ c ∧ hasChar c rest = false.
Proof.
  simpl. intros [Hc Hrest]%orb_false_elim. split; [|done].
  by apply bool_decide_eq_false in Hc.
Qed.

Lemma replaceSlashes_inj s1 s2 :
  hasChar "_" s1 = false → hasChar "_" s2 = false →
  replaceSlashes s1 = replaceSlashes s2 → s1 = s2.
Proof.
  revert s2. induction s1 as [|c1 r1 IH]; intros [|c2 r2] H1 H2 Heq.
  - done.
  - destruct (decide (c2 = "/"%char)) as [->|Hc2].
    + by rewrite replaceSlashes_slash in Heq.
    + by rewrite (replaceSlashes_other c2) in Heq.
  - destruct (decide (c1 = "/"%char)) as [->|Hc1].
    + by rewrite replaceSlashes_slash in Heq.
    + by rewrite (replaceSlashes_other c1) in Heq.
  - apply hasChar_cons in H1 as [Hu1 H1]. apply hasChar_cons in H2 as [Hu2 H2].
    destruct (decide (c1 = "/"%char)) as [->|Hc1];
      destruct (decide (c2 = "/"%char)) as [->|Hc2].
    + rewrite !replaceSlashes_slash in Heq. f_equal. apply IH; [done..|congruence].
    + rewrite replaceSlashes_slash, (replaceSlashes_other c2) in Heq by done. congruence.
    + rewrite (replaceSlashes_other c1), replaceSlashes_slash in Heq by done. congruence.
    + rewrite (replaceSlashes_other c1), (replaceSlashes_other c2) in Heq by done.
      injection Heq as -> Heq. f_equal. by apply IH.
Qed.

Lemma isDigit_not_slash c : isDigit c = true → c ≠ "/"%char.
Proof. by intros Hd ->. Qed.

Lemma isDigit_not_underscore c : isDigit c = true → c ≠ "_"%char.
Proof. by intros Hd ->. Qed.

Lemma idToFileName_digit c rest :
  isDigit c = true →
  idToFileName (String c rest) = String "_" (String c (replaceSlashes rest)).
Proof.
  intros Hd. unfold idToFileName, leftPadWithUnderscoreIfStartsWithNumber. simpl.
  rewrite Hd. change ("_" +:+ String c rest) with (String "_" (String c rest)).
  rewrite (replaceSlashes_other "_") by done.
  by rewrite (replaceSlashes_other c) by by apply isDigit_not_slash.
Qed.

Lemma idToFileName_no_digit id :
  startsWithNumber id = false → idToFileName id = replaceSlashes id.
Proof.
  intros Hd. unfold idToFileName, leftPadWithUnderscoreIfStartsWithNumber. by rewrite Hd.
Qed.

Lemma idToFileName_digit_other c1 r1 id2 :
  isDigit c1 = true → startsWithNumber id2 = false → hasChar "_" id2 = false →
  idToFileName (String c1 r1) ≠ idToFileName id2.
Proof.
  intros Hd1 Hd2 Hu2 Heq.
  rewrite (idToFileName_digit _ _ Hd1), (idToFileName_no_digit _ Hd2) in Heq.
  destruct id2 as [|c2 r2]; [done|].
  apply hasChar_cons in Hu2 as [Hc2 Hu2].
  destruct (decide (c2 = "/"%char)) as [->|Hs2].
  - rewrite replaceSlashes_slash in Heq. injection Heq as Heq _.
    by apply (isDigit_not_underscore c1).
  - rewrite (replaceSlashes_other c2) in Heq by done. congruence.
Qed.

Lemma idToFileName_inj_no_underscore id1 id2 :
  hasChar "_" id1 = false → hasChar "_" id2 = false →
  idToFileName id1 = idToFileName id2 → id1 = id2.
Proof.
  intros Hu1 Hu2 Heq.
  destruct (startsWithNumber id1) eqn:Hd1; destruct (startsWithNumber id2) eqn:Hd2.
  - destruct id1 as [|c1 r1]; [done|]. destruct id2 as [|c2 r2]; [done|].
    simpl in Hd1, Hd2. rewrite !idToFileName_digit in Heq by done.
    injection Heq as -> Heq. f_equal.
    apply hasChar_cons in Hu1 as [_ Hu1]. apply hasChar_cons in Hu2 as [_ Hu2].
    by apply replaceSlashes_inj.
  - destruct id1 as [|c1 r1]; [done|]. simpl in Hd1.
    by destruct (idToFileName_digit_other c1 r1 id2).
  - destruct id2 as [|c2 r2]; [done|]. simpl in Hd2.
    by destruct (idToFileName_digit_other c2 r2 id1).
  - rewrite !idToFileName_no_digit in Heq by done. by apply replaceSlashes_inj.
Qed.


(** ** Facts about the planning *)

Lemma mapThrows_cons {A B} (f : A → Throws B) x l :
  mapThrows f (x :: l) =
    match f x with
    | inl e => inl e
    | inr y => match mapThrows f l with
               | inl e => inl e
               | inr ys => inr (y :: ys)
               end
    end.
Proof. reflexivity. Qed.

Lemma mapThrows_inr {A B} (f : A → Throws B) l ys :
  mapThrows f l = inr ys → Forall2 (λ x y, f x = inr y) l ys.
Proof.
  revert ys. induction l as [|x l IH]; intros ys Hys.
  - injection Hys as <-. constructor.
  - rewrite mapThrows_cons in Hys.
    destruct (f x) as [e|y] eqn:Hx; [done|].
    destruct (mapThrows f l) as [e|ys'] eqn:Hl; [done|].
    injection Hys as <-. constructor; [done|]. by apply IH.
Qed.

Lemma mapThrows_all_inr {A B} (f : A → Throws B) l :
  (∀ x, x ∈ l → ∃ y, f x = inr y) → ∃ ys, mapThrows f l = inr ys.
Proof.
  induction l as [|x l IH]; intros Hl.
  - by exists [].
  - destruct (Hl x) as [y Hy]; [left|].
    destruct IH as [ys Hys]; [intros x' Hx'; apply Hl; by right|].
    exists (y :: ys). by rewrite mapThrows_cons, Hy, Hys.
Qed.

(** When every failure is the same error, one failing element makes the whole
    map fail with it. *)
Lemma mapThrows_inl {A B} (f : A → Throws B) l x e :
  x ∈ l → f x = inl e → (∀ x' e', x' ∈ l → f x' = inl e' → e' = e) →
  mapThrows f l = inl e.
Proof.
  induction l as [|x0 l IH]; intros Hin Hx Hsame.
  - by apply elem_of_nil in Hin.
  - rewrite mapThrows_cons.
    destruct (f x0) as [e0|y0] eqn:Hx0.
    + f_equal. apply (Hsame x0); [left|done].
    + apply elem_of_cons in Hin as [->|Hin]; [congruence|].
      rewrite IH; [done..|]. intros x' e' Hx'. apply Hsame. by right.
Qed.

Lemma documentIdsOfType_cons typeNameField docDef d docs :
  documentIdsOfType typeNameField docDef (d :: docs) =
    if strictEqualsString (getField d typeNameField) (name docDef)
    then _id d :: documentIdsOfType typeNameField docDef docs
    else documentIdsOfType typeNameField docDef docs.
Proof.
  unfold documentIdsOfType. simpl.
  by destruct (strictEqualsString (getField d typeNameField) (name docDef)).
Qed.

Lemma strictEqualsString_true value str :
  strictEqualsString value str = true ↔ value = Some (JString str).
Proof.
  destruct value as [[]|]; simpl; try (split; done).
  rewrite bool_decide_eq_true. split; congruence.
Qed.


Lemma documentIdsOfType_elem typeNameField docDef docs id :
  id ∈ documentIdsOfType typeNameField docDef docs ↔
  ∃ d, d ∈ docs ∧ _id d = id ∧ getField d typeNameField = Some (JString (name docDef)).
Proof.
  induction docs as [|d docs IH].
  - split; [by intros ?%elem_of_nil|]. by intros (d & ?%elem_of_nil & _).
  - rewrite documentIdsOfType_cons.
    destruct (strictEqualsString _ _) eqn:Hd.
    + apply strictEqualsString_true in Hd. rewrite elem_of_cons, IH. split.
      * intros [->|(d' & Hd' & Hid & Hty)]; [exists d; by repeat split; try left|].
        exists d'. by repeat split; try right.
      * intros (d' & [->|Hd']%elem_of_cons & Hid & Hty); [by left|].
        right. by exists d'.
    + rewrite IH. split.
      * intros (d' & Hd' & Hid & Hty). exists d'. by repeat split; try right.
      * intros (d' & [->|Hd']%elem_of_cons & Hid & Hty); [|by exists d'].
        apply strictEqualsString_true in Hty. congruence.
Qed.




Section PlanningFacts.
Context `{Host}.

Lemma typeNameOf_dataJsonFile targetPath typeNameField item typeName :
  typeNameOf typeNameField (DataCache.document item) = Some typeName →
  dataJsonFile targetPath typeNameField item =
    inr {| filePath := path_join [targetPath; "data"; typeName;
                                  idToFileName (_id (DataCache.document item)) +:+ ".json"];
           content := JSON_stringify_document (DataCache.document item);
           documentHash := Some (DataCache.documentHash item) |}.
Proof.
  unfold typeNameOf, dataJsonFile. intros Hty.
  destruct (getField _ _) as [[]|]; try done. by injection Hty as ->.
Qed.

Lemma dataJsonFile_inr targetPath typeNameField item file :
  dataJsonFile targetPath typeNameField item = inr file →
  ∃ typeName, typeNameOf typeNameField (DataCache.document item) = Some typeName.
Proof.
  unfold typeNameOf, dataJsonFile. intros Hfile.
  destruct (getField _ _) as [[]|]; try done. by eexists.
Qed.

(** The only error of a barrel is that of the singleton without document. *)
Lemma makeDataExportFile_inl docDef documentIds e :
  makeDataExportFile docDef documentIds = inl e →
  isSingleton docDef = true ∧ documentIds = []
  ∧ e = TypeError "Cannot read properties of undefined (reading 'replace')".
Proof.
  unfold makeDataExportFile. destruct (isSingleton docDef); [|done].
  destruct documentIds as [|documentId rest]; simpl; [|done].
  intros [= <-]. done.
Qed.

Lemma makeDataExportFile_empty_singleton docDef :
  isSingleton docDef = true →
  makeDataExportFile docDef [] =
    inl (TypeError "Cannot read properties of undefined (reading 'replace')").
Proof. unfold makeDataExportFile. by intros ->. Qed.

Lemma dataBarrelFile_inl targetPath typeNameField allDocuments docDef e :
  dataBarrelFile targetPath typeNameField allDocuments docDef = inl e →
  e = TypeError "Cannot read properties of undefined (reading 'replace')".
Proof.
  unfold dataBarrelFile.
  destruct (makeDataExportFile _ _) as [e'|text] eqn:Hexp; [|done].
  intros [= <-]. by apply makeDataExportFile_inl in Hexp as (_ & _ & ->).
Qed.


Lemma dataBarrelFiles_empty_singleton schemaDef cache targetPath generationOptions docDef :
  docDef ∈ map snd (documentTypeDefMap schemaDef) →
  isSingleton docDef = true →
  documentIdsOfType (typeFieldName (fieldOptions (options generationOptions))) docDef
    (map DataCache.document (map snd (DataCache.cacheItemsMap cache))) = [] →
  dataBarrelFiles schemaDef cache targetPath generationOptions =
    inl (TypeError "Cannot read properties of undefined (reading 'replace')").
Proof.
  intros Hin Hsingle Hnone. unfold dataBarrelFiles.
  apply (mapThrows_inl _ _ docDef); [done| |].
  - unfold dataBarrelFile. by rewrite Hnone, makeDataExportFile_empty_singleton.
  - intros docDef' e' _. apply dataBarrelFile_inl.
Qed.



Lemma dataJsonFiles_total cache targetPath generationOptions :
  (∀ item, item ∈ map snd (DataCache.cacheItemsMap cache) →
     is_Some (typeNameOf (typeFieldName (fieldOptions (options generationOptions)))
                         (DataCache.document item))) →
  ∃ jsons, dataJsonFiles cache targetPath generationOptions = inr jsons.
Proof.
  intros Hty. unfold dataJsonFiles. apply mapThrows_all_inr.
  intros item [typeName Hitem]%Hty.
  eexists. by apply typeNameOf_dataJsonFile.
Qed.

Lemma dataJsonFiles_inr cache targetPath generationOptions jsons :
  dataJsonFiles cache targetPath generationOptions = inr jsons →
  Forall2 (λ item file,
             ∃ typeName,
               typeNameOf (typeFieldName (fieldOptions (options generationOptions)))
                          (DataCache.document item) = Some typeName
               ∧ filePath file =
                   path_join [targetPath; "data"; typeName;
                              idToFileName (_id (DataCache.document item)) +:+ ".json"]
               ∧ content file = JSON_stringify_document (DataCache.document item)
               ∧ documentHash file = Some (DataCache.documentHash item))
          (map snd (DataCache.cacheItemsMap cache)) jsons.
Proof.
  unfold dataJsonFiles. intros Hj%mapThrows_inr.
  induction Hj as [|item file items files Hfile _ IH]; constructor; [|done].
  destruct (dataJsonFile_inr _ _ _ _ Hfile) as [typeName Hty].
  rewrite (typeNameOf_dataJsonFile _ _ _ _ Hty) in Hfile. injection Hfile as <-.
  by exists typeName.
Qed.

End PlanningFacts.

(** ** Facts about the writer *)

Lemma filter_map_comm {A B} (f : A → B) (p : B → bool) l :
  List.filter p (map f l) = map f (List.filter (λ x, p (f x)) l).
Proof.
  induction l as [|x l IH]; simpl; [done|]. destruct (p (f x)); simpl; by rewrite IH.
Qed.


Lemma filter_Permutation_bool {A} (p : A → bool) l l' :
  l ≡ₚ l' → List.filter p l ≡ₚ List.filter p l'.
Proof.
  induction 1 as [|x l l' _ IH|x y l|l1 l2 l3 _ IH1 _ IH2]; simpl.
  - done.
  - destruct (p x); by rewrite IH.
  - destruct (p x), (p y); try done. apply perm_swap.
  - by etrans.
Qed.

Lemma delete_map {A B} (f : A → B) k l : delete k (map f l) = map f (delete k l).
Proof.
  revert k. induction l as [|x l IH]; intros [|k]; simpl; try done.
  f_equal. apply IH.
Qed.

Lemma lookup_map {A B} (f : A → B) k l : map f l !! k = f <$> l !! k.
Proof. revert k. induction l as [|x l IH]; intros [|k]; simpl; auto. Qed.

Section WritingFacts.
Context `{Host}.

(** *** The order of completion is a rearrangement *)

Lemma completionOrder_Permutation {A} order (pending : list A) :
  completionOrder (length pending) order pending ≡ₚ pending.
Proof.
  remember (length pending) as n eqn:Hn.
  revert order pending Hn. induction n as [|n IH]; intros order pending Hn.
  - by destruct pending.
  - simpl. destruct pending as [|first rest]; [done|].
    set (k := (hd 0 order `mod` length (first :: rest))%nat).
    assert (k < length (first :: rest))%nat as Hk.
    { apply Nat.mod_upper_bound. simpl. lia. }
    destruct (lookup_lt_is_Some_2 _ _ Hk) as [next Hnext]. rewrite Hnext.
    rewrite (delete_Permutation _ _ _ Hnext) at 2. constructor.
    apply IH. rewrite length_delete by eauto. simpl in *. lia.
Qed.

(** Every rearrangement is the order of completion of some [order]. *)
Lemma completionOrder_complete {A} (pending completed : list A) :
  completed ≡ₚ pending →
  ∃ order, completionOrder (length pending) order pending = completed.
Proof.
  revert pending. induction completed as [|next rest IH]; intros pending Hperm.
  - apply Permutation_nil_l in Hperm as <-. by exists [].
  - assert (next ∈ pending) as Hin by (rewrite <- Hperm; left).
    apply list_elem_of_lookup in Hin as [k Hk].
    pose proof (lookup_lt_Some _ _ _ Hk) as Hlt.
    rewrite (delete_Permutation _ _ _ Hk) in Hperm.
    apply Permutation_cons_inv in Hperm.
    destruct (IH _ Hperm) as [order Horder].
    exists (k :: order).
    destruct (length pending) as [|n] eqn:Hn; [lia|]. simpl.
    rewrite Hn, Nat.mod_small, Hk by lia. f_equal.
    rewrite <- Horder. f_equal. rewrite length_delete by eauto. lia.
Qed.

Lemma completionOrder_map {A B} (f : A → B) fuel order (pending : list A) :
  completionOrder fuel order (map f pending) = map f (completionOrder fuel order pending).
Proof.
  revert order pending. induction fuel as [|fuel IH]; intros order pending; [done|].
  simpl. rewrite length_map, lookup_map.
  destruct (pending !! _) as [next|]; simpl; [|done].
  by rewrite delete_map, IH.
Qed.

(** *** A single call *)

Lemma fs_writeFile_world path text w :
  journal (fs_writeFile path text w).2 = journal w ++ [WriteFile path text]
  ∧ writtenFilesCache (fs_writeFile path text w).2 = writtenFilesCache w.
Proof. unfold fs_writeFile. by destruct (fsPromise_writeFile path text (disk w)). Qed.

Lemma fs_mkdir_world dirPath w :
  journal (fs_mkdir dirPath w).2 = journal w ++ [Mkdir dirPath]
  ∧ writtenFilesCache (fs_mkdir dirPath w).2 = writtenFilesCache w.
Proof. unfold fs_mkdir. by destruct (fsPromise_mkdir dirPath (disk w)). Qed.

Lemma mkdir_world dirPath w :
  journal (mkdir dirPath w).2 = journal w ++ [Mkdir dirPath]
  ∧ writtenFilesCache (mkdir dirPath w).2 = writtenFilesCache w.
Proof.
  unfold mkdir. pose proof (fs_mkdir_world dirPath w) as Hw.
  destruct (fs_mkdir dirPath w) as [[e|[]] w']; [|done].
  by destruct (codeIsNotEEXIST e).
Qed.

Lemma recordWrittenFile_world file w :
  recordWrittenFile file w =
    (inr (), {| disk := disk w; journal := journal w;
                writtenFilesCache := recorded (writtenFilesCache w) file |}).
Proof.
  unfold recordWrittenFile, recorded. destruct w as [d j c]; simpl.
  destruct (documentHash file) as [hash|]; [|done]. by destruct (isTruthy hash).
Qed.

(** The write is made first; the hash is recorded when, and only when, the
    write has succeeded. *)
Lemma writeThenRecord_world file w r w' :
  writeThenRecord file w = (r, w') →
  journal w' = journal w ++ [writeCall file]
  ∧ writtenFilesCache w' =
      match r with
      | inr _ => recorded (writtenFilesCache w) file
      | inl _ => writtenFilesCache w
      end.
Proof.
  unfold writeThenRecord, bind.
  pose proof (fs_writeFile_world (filePath file) (content file) w) as [Hj Hc].
  destruct (fs_writeFile _ _ w) as [[e|[]] w1]; simpl in *.
  - by intros [= <- <-].
  - rewrite recordWrittenFile_world. intros [= <- <-]. simpl. by rewrite Hj, Hc.
Qed.

Lemma recorded_lookup_other cache file path :
  filePath file ≠ path → recorded cache file !! path = cache !! path.
Proof.
  intros Hne. unfold recorded. destruct (documentHash file) as [hash|]; [|done].
  destruct (isTruthy hash); [|done]. by rewrite lookup_insert_ne.
Qed.

Lemma recorded_lookup_truthy cache file hash :
  documentHash file = Some hash → hash ≠ "" →
  recorded cache file !! filePath file = Some hash.
Proof.
  intros Hhash Hne. unfold recorded, isTruthy. rewrite Hhash.
  rewrite bool_decide_eq_false_2 by done. simpl. by rewrite lookup_insert_eq.
Qed.

Lemma recorded_truthy cache file :
  hashesAreTruthy cache → hashesAreTruthy (recorded cache file).
Proof.
  intros Hc. unfold recorded. destruct (documentHash file) as [hash|]; [|done].
  unfold isTruthy. case_bool_decide as Hh; simpl; [done|].
  intros path hash'. rewrite lookup_insert. case_decide; [|by apply Hc].
  by intros [= <-].
Qed.

(** *** Calls settled together *)

Lemma settle_cons call pending w :
  settle (call :: pending) w =
    let '(r, w1) := call w in
    let '(r', w2) := settle pending w1 in
    (match r with inl e => Some e | inr _ => r' end, w2).
Proof. reflexivity. Qed.

Lemma settle_writes_journal files w :
  journal (settle (map writeThenRecord files) w).2 = journal w ++ map writeCall files.
Proof.
  revert w. induction files as [|file files IH]; intros w; simpl.
  - by rewrite app_nil_r.
  - destruct (writeThenRecord file w) as [r w1] eqn:Hcall.
    apply writeThenRecord_world in Hcall as [Hj _].
    specialize (IH w1). destruct (settle _ w1) as [r' w2]. simpl in *.
    by rewrite IH, Hj, <- app_assoc.
Qed.

(** Whatever the outcomes, a property of the cache that recording keeps is
    kept by the whole. *)
Lemma settle_writes_invariant (P : gmap string string → Prop) files w :
  (∀ cache file, file ∈ files → P cache → P (recorded cache file)) →
  P (writtenFilesCache w) →
  P (writtenFilesCache (settle (map writeThenRecord files) w).2).
Proof.
  revert w. induction files as [|file files IH]; intros w Hkeep Hw; simpl; [done|].
  destruct (writeThenRecord file w) as [r w1] eqn:Hcall.
  apply writeThenRecord_world in Hcall as [_ Hc].
  assert (P (writtenFilesCache w1)) as Hw1.
  { rewrite Hc. destruct r; [done|]. apply Hkeep; [left|done]. }
  specialize (IH w1). destruct (settle _ w1) as [r' w2]. simpl in *.
  apply IH; [|done]. intros cache file' Hin. apply Hkeep. by right.
Qed.

Lemma settle_writes_success files w w' :
  settle (map writeThenRecord files) w = (None, w') →
  writtenFilesCache w' = foldl recorded (writtenFilesCache w) files.
Proof.
  revert w. induction files as [|file files IH]; intros w; simpl.
  - by intros [= <-].
  - destruct (writeThenRecord file w) as [r w1] eqn:Hcall.
    apply writeThenRecord_world in Hcall as [_ Hc].
    destruct (settle _ w1) as [r' w2] eqn:Hrest.
    destruct r as [e|[]]; [done|]. intros [= -> <-].
    rewrite (IH _ Hrest). by rewrite Hc.
Qed.

Lemma settle_mkdirs dirs w :
  writtenFilesCache (settle (map mkdir dirs) w).2 = writtenFilesCache w
  ∧ journal (settle (map mkdir dirs) w).2 = journal w ++ map Mkdir dirs.
Proof.
  revert w. induction dirs as [|dir dirs IH]; intros w; simpl.
  - by rewrite app_nil_r.
  - pose proof (mkdir_world dir w) as [Hj Hc].
    destruct (mkdir dir w) as [r w1]. specialize (IH w1) as [IHc IHj].
    destruct (settle _ w1) as [r' w2]. simpl in *.
    by rewrite IHc, IHj, Hj, Hc, <- app_assoc.
Qed.

End WritingFacts.

Section PassFacts.
Context `{Host}.

(** *** Counting the writes of a path *)

Lemma writesTo_app path calls calls' :
  writesTo path (calls ++ calls') = (writesTo path calls + writesTo path calls')%nat.
Proof. unfold writesTo. by rewrite List.filter_app, length_app. Qed.

Lemma writesTo_mkdirs path dirs : writesTo path (map Mkdir dirs) = 0%nat.
Proof. induction dirs as [|dir dirs IH]; [done|]. apply IH. Qed.


Lemma callsSince_app w w' calls :
  journal w' = journal w ++ calls → callsSince w w' = calls.
Proof. unfold callsSince. intros ->. by rewrite drop_app_length. Qed.

Lemma filesAt_elem path files file :
  file ∈ filesAt path files ↔ file ∈ files ∧ filePath file = path.
Proof.
  unfold filesAt. rewrite !list_elem_of_In, List.filter_In, bool_decide_eq_true. done.
Qed.

Lemma filesAt_nil path files file :
  filesAt path files = [] → file ∈ files → filePath file ≠ path.
Proof.
  intros Hnil Hin Hpath. assert (file ∈ filesAt path files) as Hf by by apply filesAt_elem.
  rewrite Hnil in Hf. by apply elem_of_nil in Hf.
Qed.

Lemma filesAt_Permutation path files files' :
  files ≡ₚ files' → filesAt path files ≡ₚ filesAt path files'.
Proof. apply filter_Permutation_bool. Qed.


(** *** The cache after the writes of a pass have all succeeded *)

Lemma foldl_recorded_other path cache files :
  filesAt path files = [] →
  foldl recorded cache files !! path = cache !! path.
Proof.
  revert cache. induction files as [|file files IH]; intros cache Hnil; simpl; [done|].
  assert (filePath file ≠ path) as Hne by (apply (filesAt_nil _ _ _ Hnil); left).
  unfold filesAt in Hnil. simpl in Hnil. rewrite bool_decide_eq_false_2 in Hnil by done.
  rewrite IH by done. by apply recorded_lookup_other.
Qed.


(** *** The writes of a pass *)

Lemma writeAll_world order files w r w' :
  writeAll order files w = (r, w') →
  ∃ completed,
    completed ≡ₚ startedWrites (writtenFilesCache w) files
    ∧ journal w' = journal w ++ map writeCall completed
    ∧ (r = inr () → writtenFilesCache w' = foldl recorded (writtenFilesCache w) completed)
    ∧ (∀ P : gmap string string → Prop,
         (∀ cache file, file ∈ files → P cache → P (recorded cache file)) →
         P (writtenFilesCache w) → P (writtenFilesCache w')).
Proof.
  unfold writeAll, Promise_all. rewrite length_map, completionOrder_map.
  set (started := startedWrites (writtenFilesCache w) files).
  set (completed := completionOrder (length started) order started).
  assert (completed ≡ₚ started) as Hperm by apply completionOrder_Permutation.
  pose proof (settle_writes_journal completed w) as Hj.
  pose proof (settle_writes_success completed w) as Hs.
  pose proof (λ P, settle_writes_invariant P completed w) as Hinv.
  destruct (settle (map writeThenRecord completed) w) as [r0 w0]. simpl in *.
  intros [= <- <-]. exists completed. split; [done|]. split; [done|]. split.
  - destruct r0; [done|]. intros _. by apply Hs.
  - intros P Hkeep. apply Hinv. intros cache file Hin. apply Hkeep.
    rewrite Hperm in Hin. unfold started, startedWrites in Hin.
    apply list_elem_of_In, List.filter_In in Hin as [Hin _]. by apply list_elem_of_In.
Qed.


(** *** What precedes the writes *)

Lemma beforeWriting_refl params w : beforeWriting params w w.
Proof. split; [done|]. exists []. by rewrite app_nil_r. Qed.

Lemma beforeWriting_mkdirs params w w1 w2 dirs :
  beforeWriting params w w1 →
  writtenFilesCache w2 = writtenFilesCache w1 →
  journal w2 = journal w1 ++ map Mkdir dirs →
  beforeWriting params w w2.
Proof.
  intros (Hc & calls & Hj & Hcalls) Hc2 Hj2. split; [congruence|].
  exists (calls ++ map Mkdir dirs). split; [by rewrite Hj2, Hj, app_assoc|].
  intros path Hpath. by rewrite writesTo_app, writesTo_mkdirs, Hcalls.
Qed.

Lemma debugDump_world params w r wd :
  debugDump params w = (r, wd) →
  beforeWriting params w wd ∧ (CL_DEBUG = false → r = inr () ∧ wd = w).
Proof.
  unfold debugDump, beforeWriting, debugDumpPaths.
  destruct CL_DEBUG.
  2:{ intros [= <- <-]. split; [|done]. split; [done|]. exists []. by rewrite app_nil_r. }
  unfold bind. intros Hrun. split; [|done].
  pose proof (fs_mkdir_world (withPrefix (targetPath params) ["cache"]) w) as [Hj1 Hc1].
  destruct (fs_mkdir _ w) as [[e1|[]] w1]; simpl in *.
  { injection Hrun as <- <-. split; [done|]. eexists. split; [done|]. done. }
  match type of Hrun with context [fs_writeFile ?p ?t w1] =>
    pose proof (fs_writeFile_world p t w1) as [Hj2 Hc2];
    destruct (fs_writeFile p t w1) as [[e2|[]] w2]; simpl in *
  end.
  { injection Hrun as <- <-. split; [congruence|]. eexists.
    split; [by rewrite Hj2, Hj1, <- app_assoc|].
    intros path Hpath. unfold writesTo. simpl.
    rewrite bool_decide_eq_false_2; [done|]. intros <-. apply Hpath. by left. }
  match type of Hrun with context [fs_writeFile ?p ?t w2] =>
    pose proof (fs_writeFile_world p t w2) as [Hj3 Hc3]
  end.
  rewrite Hrun in Hj3, Hc3. simpl in *. split; [congruence|]. eexists.
  split; [by rewrite Hj3, Hj2, Hj1, <- !app_assoc|].
  intros path Hpath. unfold writesTo. simpl.
  rewrite !bool_decide_eq_false_2; [done| |].
  - intros <-. apply Hpath. right. by left.
  - intros <-. apply Hpath. by left.
Qed.

(** A pass either stops before any file of the plan is written, or runs
    the writes of its plan from a world that still has the cache the pass
    began with. *)
Lemma writeFilesForCache__cases schedule params w r w' :
  writeFilesForCache_ schedule params w = (r, w') →
  (∃ e, r = inl e ∧ beforeWriting params w w')
  ∨ (∃ files wm,
       plannedFiles params = inr files
       ∧ beforeWriting params w wm
       ∧ writeAll (writeOrder schedule) files wm = (r, w')).
Proof.
  unfold writeFilesForCache_, bind, liftThrows.
  destruct (debugDump params w) as [rd wd] eqn:Hd.
  apply debugDump_world in Hd as [Hbefore _].
  destruct rd as [e|[]].
  { intros [= <- <-]. left. by exists e. }
  fold (plannedFiles params). destruct (plannedFiles params) as [e|files] eqn:Hplan.
  { intros [= <- <-]. left. by exists e. }
  unfold Promise_all at 1. rewrite length_map, completionOrder_map.
  match goal with |- context [settle (map mkdir ?dirs) wd] =>
    pose proof (settle_mkdirs dirs wd) as [Hc Hj];
    destruct (settle (map mkdir dirs) wd) as [rm wm]; simpl in *
  end.
  assert (beforeWriting params w wm) as Hwm by by eapply beforeWriting_mkdirs.
  destruct rm as [e|].
  { intros [= <- <-]. left. by exists e. }
  intros Hwrite. right. by exists files, wm.
Qed.

Lemma generateForCache_cases schedule params w outcome w' :
  generateForCache schedule params w = (outcome, w') →
  ∃ r, writeFilesForCache_ schedule params w = (r, w')
       ∧ outcome = match r with
                   | inl e => inl (UnknownFSError e)
                   | inr _ => inr {| documentCount :=
                                       length (DataCache.cacheItemsMap (cache params)) |}
                   end.
Proof.
  unfold generateForCache, writeFilesForCache.
  destruct (writeFilesForCache_ schedule params w) as [[e|[]] w0];
    intros [= <- <-]; by eexists.
Qed.



Lemma pass_truthy schedule params w r w' :
  writeFilesForCache_ schedule params w = (r, w') →
  hashesAreTruthy (writtenFilesCache w) → hashesAreTruthy (writtenFilesCache w').
Proof.
  intros Hrun Hw.
  destruct (writeFilesForCache__cases _ _ _ _ _ Hrun)
    as [(e & _ & Hc & _)|(files & wm & _ & (Hc & _) & Hwrite)].
  - by rewrite Hc.
  - apply writeAll_world in Hwrite as (_ & _ & _ & _ & Hinv).
    apply Hinv; [|by rewrite Hc]. intros cache file _. apply recorded_truthy.
Qed.

(** A pass that reaches its writes writes every file of the plan that the
    cache does not show up to date. *)
Lemma pass_writes_started schedule params w r w' files file :
  writeFilesForCache_ schedule params w = (r, w') →
  plannedFiles params = inr files →
  file ∈ files → fileIsUpToDate (writtenFilesCache w) file = false →
  writeCall file ∈ callsSince w w'
  ∨ ((∃ e, r = inl e) ∧ beforeWriting params w w').
Proof.
  intros Hrun Hplan Hin Hup.
  destruct (writeFilesForCache__cases _ _ _ _ _ Hrun)
    as [(e & He & Hbefore)
       |(files' & wm & Hplan' & (Hc & calls & Hj & _) & Hwrite)].
  { right. split; [by exists e|done]. }
  left. same_plan Hplan Hplan'.
  apply writeAll_world in Hwrite as (completed & Hperm & Hj' & _).
  rewrite Hj, <- app_assoc in Hj'. rewrite (callsSince_app _ _ _ Hj').
  apply elem_of_app. right. apply list_elem_of_In, List.in_map, list_elem_of_In.
  rewrite Hperm. unfold startedWrites.
  apply list_elem_of_In, List.filter_In. split; [by apply list_elem_of_In|].
  by rewrite Hc, Hup.
Qed.

Lemma generateForCache_inr schedule params w info w' :
  generateForCache schedule params w = (inr info, w') →
  writeFilesForCache_ schedule params w = (inr (), w')
  ∧ info = {| documentCount := length (DataCache.cacheItemsMap (cache params)) |}.
Proof.
  unfold generateForCache, writeFilesForCache.
  destruct (writeFilesForCache_ schedule params w) as [[e|[]] w0]; [done|].
  by intros [= <- <-].
Qed.

Lemma generateForCache_run schedule params w :
  ∃ r, writeFilesForCache_ schedule params w = (r, (generateForCache schedule params w).2).
Proof.
  unfold generateForCache, writeFilesForCache.
  destruct (writeFilesForCache_ schedule params w) as [[e|[]] w0]; by eexists.
Qed.

End PassFacts.

(** ** The write cache *)

Section WriterClaims.
Context `{Host}.

Lemma writeFile_up_to_date file w :
  fileIsUpToDate (writtenFilesCache w) file = true →
  writeFileWithWrittenFilesCache file w = (inr (), w).
Proof. unfold writeFileWithWrittenFilesCache. by intros ->. Qed.

Lemma writeFile_out_of_date file w :
  fileIsUpToDate (writtenFilesCache w) file = false →
  writeFileWithWrittenFilesCache file w = writeThenRecord file w.
Proof. unfold writeFileWithWrittenFilesCache. by intros ->. Qed.

Lemma writeFile_out_of_date_calls file w :
  fileIsUpToDate (writtenFilesCache w) file = false →
  callsSince w (writeFileWithWrittenFilesCache file w).2 = [writeCall file].
Proof.
  intros Hup. rewrite writeFile_out_of_date by done.
  destruct (writeThenRecord file w) as [r w'] eqn:Hrun.
  apply writeThenRecord_world in Hrun as [Hj _]. by apply callsSince_app.
Qed.

Lemma fileIsUpToDate_hash cache file hash :
  documentHash file = Some hash →
  fileIsUpToDate cache file = bool_decide (cache !! filePath file = Some hash).
Proof. unfold fileIsUpToDate. by intros ->. Qed.





(** C6: a call with a document hash that is not skipped makes the write,
    and its outcome is that of the write.  When the write fails the cache
    is left as it was, the file is still out of date, and the next call
    for it writes again.  When the cache has changed the write has
    succeeded; after a successful write the cache is the old one with the
    hash recorded at the path (for a hash that is not empty). *)
Theorem hash_recorded_only_after_successful_write :
  ∀ file hash w r w',
    documentHash file = Some hash →
    fileIsUpToDate (writtenFilesCache w) file = false →
    writeFileWithWrittenFilesCache file w = (r, w') →
    callsSince w w' = [writeCall file]
    ∧ r = match (fsPromise_writeFile (filePath file) (content file) (disk w)).2 with
          | Some e => inl e
          | None => inr ()
          end
    ∧ (∀ e, r = inl e →
         writtenFilesCache w' = writtenFilesCache w
         ∧ fileIsUpToDate (writtenFilesCache w') file = false
         ∧ callsSince w' (writeFileWithWrittenFilesCache file w').2 = [writeCall file])
    ∧ (writtenFilesCache w' ≠ writtenFilesCache w → r = inr ())
    ∧ (r = inr () →
         writtenFilesCache w' =
           if decide (hash = "") then writtenFilesCache w
           else <[filePath file := hash]> (writtenFilesCache w)).
Proof.
  intros file hash w r w' Hhash Hup Hrun.
  rewrite writeFile_out_of_date in Hrun by done.
  pose proof (writeThenRecord_world _ _ _ _ Hrun) as [Hj Hc].
  split; [by apply callsSince_app|]. split; [|split; [|split]].
  - unfold writeThenRecord, bind, fs_writeFile in Hrun.
    destruct (fsPromise_writeFile _ _ (disk w)) as [disk' [e|]]; simpl in *.
    + by injection Hrun as <- _.
    + rewrite recordWrittenFile_world in Hrun. by injection Hrun as <- _.
  - intros e ->. split; [done|]. rewrite Hc. split; [done|].
    apply writeFile_out_of_date_calls. by rewrite Hc.
  - intros Hchanged. destruct r as [e|[]]; [|done]. by destruct Hchanged.
  - intros ->. rewrite Hc. unfold recorded, isTruthy. rewrite Hhash.
    case_decide as Hempty.
    + by rewrite bool_decide_eq_true_2.
    + by rewrite bool_decide_eq_false_2.
Qed.

End WriterClaims.

(** ** The passes *)

Section PassClaims.
Context `{Host}.

Lemma generateForCache_truthy schedule params w :
  hashesAreTruthy (writtenFilesCache w) →
  hashesAreTruthy (writtenFilesCache (generateForCache schedule params w).2).
Proof.
  intros Hw. destruct (generateForCache_run schedule params w) as [r Hrun].
  by eapply pass_truthy.
Qed.

Lemma runPasses_truthy schemaDef targetPath generationOptions stream w :
  hashesAreTruthy (writtenFilesCache w) →
  hashesAreTruthy
    (writtenFilesCache (runPasses schemaDef targetPath generationOptions stream w).2).
Proof.
  revert w. induction stream as [|fetched stream IH]; intros w Hw; simpl; [done|].
  destruct (fetchedCache fetched) as [e|cache].
  - specialize (IH w Hw). by destruct (runPasses _ _ _ stream w).
  - pose proof (generateForCache_truthy (schedule fetched)
                  {| schemaDef := schemaDef; cache := cache; targetPath := targetPath;
                     generationOptions := generationOptions |} w Hw) as Hw1.
    destruct (generateForCache _ _ w) as [outcome w1]. simpl in Hw1.
    specialize (IH w1 Hw1). by destruct (runPasses _ _ _ stream w1).
Qed.

Lemma runPasses_outcomes schemaDef targetPath generationOptions stream w i info :
  (runPasses schemaDef targetPath generationOptions stream w).1 !! i = Some (inr info) →
  ∃ fetched cache,
    stream !! i = Some fetched
    ∧ fetchedCache fetched = inr cache
    ∧ documentCount info = length (DataCache.cacheItemsMap cache).
Proof.
  revert w i. induction stream as [|fetched stream IH]; intros w i; simpl; [done|].
  destruct (fetchedCache fetched) as [e|cache] eqn:Hfetched.
  - specialize (IH w). destruct (runPasses _ _ _ stream w) as [outcomes w2].
    destruct i as [|i]; simpl; [done|]. apply IH.
  - destruct (generateForCache _ _ w) as [outcome w1] eqn:Hpass.
    specialize (IH w1). destruct (runPasses _ _ _ stream w1) as [outcomes w2].
    destruct i as [|i]; simpl; [|apply IH].
    intros [= ->]. apply generateForCache_inr in Hpass as [_ ->].
    by exists fetched, cache.
Qed.

(** C9: the cache of a run never holds the empty hash, at the start of the
    stream, after any pass and after any number of passes.  With such a
    cache, a call of the cached writer whose document hash is the empty
    string is not skipped: it is the plain write of the file, and it leaves
    the cache as it was, so that the next call finds the same.  Every pass
    writes each planned file whose hash is empty, unless the pass fails
    before its writes begin. *)
Theorem empty_hash_is_never_recorded :
  (∀ resolveParams generationOptions stream disk0,
     hashesAreTruthy
       (writtenFilesCache
          (generateDotpkgStream resolveParams generationOptions stream disk0).2))
  ∧ (∀ file w,
       hashesAreTruthy (writtenFilesCache w) →
       hashesAreTruthy (writtenFilesCache (writeFileWithWrittenFilesCache file w).2))
  ∧ (∀ file w,
       documentHash file = Some "" →
       hashesAreTruthy (writtenFilesCache w) →
       fileIsUpToDate (writtenFilesCache w) file = false
       ∧ writeFileWithWrittenFilesCache file w
         = fs_writeFile (filePath file) (content file) w
       ∧ callsSince w (writeFileWithWrittenFilesCache file w).2 = [writeCall file]
       ∧ writtenFilesCache (writeFileWithWrittenFilesCache file w).2
         = writtenFilesCache w)
  ∧ (∀ schedule params w outcome w' files file,
       hashesAreTruthy (writtenFilesCache w) →
       generateForCache schedule params w = (outcome, w') →
       plannedFiles params = inr files →
       file ∈ files → documentHash file = Some "" →
       writeCall file ∈ callsSince w w'
       ∨ ((∃ e, outcome = inl e) ∧ beforeWriting params w w')).
Proof.
  assert (∀ file cache, documentHash file = Some "" → hashesAreTruthy cache →
            fileIsUpToDate cache file = false) as Hnever.
  { intros file cache Hhash Hc. rewrite (fileIsUpToDate_hash _ _ _ Hhash).
    apply bool_decide_eq_false. intros Hfound. by apply (Hc _ _ Hfound). }
  split; [|split; [|split]].
  - intros resolveParams generationOptions stream disk0. unfold generateDotpkgStream.
    assert (hashesAreTruthy (∅ : gmap string string)) as Hempty.
    { intros path hash. by rewrite lookup_empty. }
    destruct resolveParams as [e|[schemaDef targetPath]]; [done|].
    by apply runPasses_truthy.
  - intros file w Hw. unfold writeFileWithWrittenFilesCache.
    destruct (fileIsUpToDate _ file); [done|].
    destruct (writeThenRecord file w) as [r w'] eqn:Hrun.
    apply writeThenRecord_world in Hrun as [_ Hc]. simpl. rewrite Hc.
    destruct r; [done|]. by apply recorded_truthy.
  - intros file w Hhash Hw. pose proof (Hnever _ _ Hhash Hw) as Hup.
    split; [done|]. rewrite (writeFile_out_of_date _ _ Hup).
    assert (writeThenRecord file w = fs_writeFile (filePath file) (content file) w) as ->.
    { unfold writeThenRecord, bind, recordWrittenFile. rewrite Hhash.
      by destruct (fs_writeFile _ _ w) as [[e|[]] w']. }
    pose proof (fs_writeFile_world (filePath file) (content file) w) as [Hj Hc].
    split; [done|]. split; [by apply callsSince_app|done].
  - intros schedule params w outcome w' files file Hw Hpass Hplan Hin Hhash.
    apply generateForCache_cases in Hpass as (r & Hrun & ->).
    destruct (pass_writes_started _ _ _ _ _ _ file Hrun Hplan Hin)
      as [Hwritten|[[e ->] Hbefore]].
    + by apply Hnever.
    + by left.
    + right. split; [by eexists|done].
Qed.

(** C8: the summary of a pass that succeeds counts the cache items of the
    snapshot of that pass; in the stream of passes, every summary is that
    of the snapshot at the same position of the stream of the source. *)
Theorem documentCount_is_number_of_cache_items :
  (∀ schedule params w info w',
     generateForCache schedule params w = (inr info, w') →
     documentCount info = length (DataCache.cacheItemsMap (cache params)))
  ∧ (∀ resolveParams generationOptions stream disk0 i info,
       (generateDotpkgStream resolveParams generationOptions stream disk0).1 !! i
       = Some (inr info) →
       ∃ fetched cache,
         stream !! i = Some fetched
         ∧ fetchedCache fetched = inr cache
         ∧ documentCount info = length (DataCache.cacheItemsMap cache)).
Proof.
  split.
  - intros schedule params w info w' Hpass.
    by apply generateForCache_inr in Hpass as [_ ->].
  - intros resolveParams generationOptions stream disk0 i info.
    unfold generateDotpkgStream.
    destruct resolveParams as [e|[schemaDef targetPath]].
    + destruct i as [|[|i]]; simpl; done.
    + apply runPasses_outcomes.
Qed.

(** C4: when the schema has a singleton type and no document of the
    snapshot carries its name in the type field, the planning throws the
    [TypeError] of the missing document, and the pass fails with an error
    that wraps the one thrown.  The pass stops where the debug dump left
    off: no directory of the package is made, no planned file is written,
    in particular no barrel, and the cache is untouched.  Without the debug
    dump the world is unchanged and the error is that [TypeError]. *)
Theorem singleton_without_document_fails_the_pass :
  ∀ schedule params w docDef,
    docDef ∈ map snd (documentTypeDefMap (schemaDef params)) →
    isSingleton docDef = true →
    Forall (λ item,
              getField (DataCache.document item)
                       (typeFieldName (fieldOptions (options (generationOptions params))))
              ≠ Some (JString (name docDef)))
           (map snd (DataCache.cacheItemsMap (cache params))) →
    plannedFiles params
    = inl (TypeError "Cannot read properties of undefined (reading 'replace')")
    ∧ ∃ error,
        generateForCache schedule params w
        = (inl (UnknownFSError error), (debugDump params w).2)
        ∧ beforeWriting params w (debugDump params w).2
        ∧ ((debugDump params w).1 = inr () →
           error = TypeError "Cannot read properties of undefined (reading 'replace')")
        ∧ (CL_DEBUG = false → (debugDump params w).1 = inr () ∧ (debugDump params w).2 = w).
Proof.
  intros schedule params w docDef Hin Hsingle Hnone.
  assert (plannedFiles params
          = inl (TypeError "Cannot read properties of undefined (reading 'replace')"))
    as Hplan.
  { unfold plannedFiles, filesToWrite.
    rewrite (dataBarrelFiles_empty_singleton _ _ _ _ docDef); [done..|].
    destruct (documentIdsOfType _ docDef _) as [|id ids] eqn:Hids; [done|].
    assert (id ∈ documentIdsOfType
                   (typeFieldName (fieldOptions (options (generationOptions params))))
                   docDef
                   (map DataCache.document
                        (map snd (DataCache.cacheItemsMap (cache params))))) as Hid
      by (rewrite Hids; left).
    apply documentIdsOfType_elem in Hid as (d & Hd & _ & Hty).
    apply list_elem_of_In, List.in_map_iff in Hd as (item & <- & Hitem).
    rewrite Forall_forall in Hnone.
    by destruct (Hnone item); [apply list_elem_of_In|]. }
  split; [done|].
  unfold generateForCache, writeFilesForCache, writeFilesForCache_, bind, liftThrows.
  fold (plannedFiles params). rewrite Hplan.
  destruct (debugDump params w) as [rd wd] eqn:Hd.
  apply debugDump_world in Hd as [Hbefore Hoff].
  destruct rd as [e|[]]; simpl.
  - exists e. split; [done|]. split; [done|]. split; [done|]. done.
  - eexists. split; [done|]. split; [done|]. split; [done|]. done.
Qed.

End PassClaims.

(** ** The plan *)

Section PlanningClaims.
Context `{Host}.



(** C3 (amended): [idToFileName] is injective on the identifiers that
    contain no underscore, not on all identifiers.  The planning checks
    nothing about the names: for every snapshot whose documents have a
    string in the type field it plans one data file for each cache item,
    and two documents of one type whose identifiers are escaped to the
    same name are both planned, at the same path. *)
Theorem idToFileName_injective_without_underscore :
  (∀ id1 id2,
     hasChar "_" id1 = false → hasChar "_" id2 = false →
     idToFileName id1 = idToFileName id2 → id1 = id2)
  ∧ (∀ cache targetPath generationOptions,
       Forall (λ item,
                 is_Some (typeNameOf (typeFieldName (fieldOptions (options generationOptions)))
                                     (DataCache.document item)))
              (map snd (DataCache.cacheItemsMap cache)) →
       ∃ jsons,
         dataJsonFiles cache targetPath generationOptions = inr jsons
         ∧ length jsons = length (DataCache.cacheItemsMap cache))
  ∧ (∀ targetPath typeNameField item1 item2 file1 file2,
       dataJsonFile targetPath typeNameField item1 = inr file1 →
       dataJsonFile targetPath typeNameField item2 = inr file2 →
       typeNameOf typeNameField (DataCache.document item1)
       = typeNameOf typeNameField (DataCache.document item2) →
       idToFileName (_id (DataCache.document item1))
       = idToFileName (_id (DataCache.document item2)) →
       filePath file1 = filePath file2).
Proof.
  split; [|split].
  - apply idToFileName_inj_no_underscore.
  - intros cache targetPath generationOptions Hty.
    destruct (dataJsonFiles_total cache targetPath generationOptions) as [jsons Hjsons].
    { intros item Hitem. by apply (proj1 (Forall_forall _ _) Hty). }
    exists jsons. split; [done|].
    apply dataJsonFiles_inr, Forall2_length in Hjsons. by rewrite length_map in Hjsons.
  - intros targetPath typeNameField item1 item2 file1 file2 Hfile1 Hfile2 Hty Hname.
    destruct (dataJsonFile_inr _ _ _ _ Hfile1) as [typeName1 Hty1].
    destruct (dataJsonFile_inr _ _ _ _ Hfile2) as [typeName2 Hty2].
    rewrite (typeNameOf_dataJsonFile _ _ _ _ Hty1) in Hfile1.
    rewrite (typeNameOf_dataJsonFile _ _ _ _ Hty2) in Hfile2.
    injection Hfile1 as <-. injection Hfile2 as <-. simpl.
    rewrite Hname. by replace typeName2 with typeName1 by congruence.
Qed.

(** C10: for every snapshot whose documents have a string in the type
    field, the planning yields the data files, one for each cache item in
    the order of the cache: the path is made of the target directory,
    [data], the value of the type field and the escaped identifier followed
    by [.json]; the content is the document printed by [JSON.stringify]
    with an indentation of two; the hash is the hash of the cache item.
    The schema has no part in it: whatever the schema, when its barrels can
    be planned, these same data files follow them in the plan. *)
Theorem one_data_file_per_cache_item :
  ∀ cache targetPath generationOptions,
    Forall (λ item,
              is_Some (typeNameOf (typeFieldName (fieldOptions (options generationOptions)))
                                  (DataCache.document item)))
           (map snd (DataCache.cacheItemsMap cache)) →
    ∃ jsons,
      dataJsonFiles cache targetPath generationOptions = inr jsons
      ∧ length jsons = length (DataCache.cacheItemsMap cache)
      ∧ Forall2 (λ item file,
                   ∃ typeName,
                     getField (DataCache.document item)
                              (typeFieldName (fieldOptions (options generationOptions)))
                     = Some (JString typeName)
                     ∧ filePath file =
                         path_join [targetPath; "data"; typeName;
                                    idToFileName (_id (DataCache.document item)) +:+ ".json"]
                     ∧ content file = JSON_stringify_document (DataCache.document item)
                     ∧ documentHash file = Some (DataCache.documentHash item))
                (map snd (DataCache.cacheItemsMap cache)) jsons
      ∧ ∀ schemaDef barrels,
          dataBarrelFiles schemaDef cache targetPath generationOptions = inr barrels →
          filesToWrite schemaDef cache targetPath generationOptions
          = inr (staticFiles schemaDef targetPath generationOptions ++ barrels ++ jsons).
Proof.
  intros cache targetPath generationOptions Hty.
  destruct (dataJsonFiles_total cache targetPath generationOptions) as [jsons Hjsons].
  { intros item Hitem. by apply (proj1 (Forall_forall _ _) Hty). }
  exists jsons. split; [done|].
  pose proof (dataJsonFiles_inr _ _ _ _ Hjsons) as Hall.
  split; [|split].
  - apply Forall2_length in Hall. by rewrite length_map in Hall.
  - eapply Forall2_impl; [exact Hall|]. simpl.
    intros item file (typeName & Hname & Hrest). exists typeName. split; [|done].
    unfold typeNameOf in Hname.
    destruct (getField _ _) as [[]|]; try done. by injection Hname as ->.
  - intros schemaDef barrels Hbarrels. unfold filesToWrite. by rewrite Hbarrels, Hjsons.
Qed.

End PlanningClaims.

(** ** The model on concrete inputs *)

Section Runs.
Import Demo.





Lemma idToFileName_injective_without_underscore_witness :
  (idToFileName "posts/a" = idToFileName "posts/a" → "posts/a" = "posts/a")
  ∧ (∃ jsons,
       dataJsonFiles (H := host) {| DataCache.cacheItemsMap := collidingItems |}
                     "/out" generation = inr jsons
       ∧ length jsons = 2%nat)
  ∧ (∃ file1 file2,
       dataJsonFile (H := host) "/out" "type" (item (post "a/b" "nested") "hash-1").2
       = inr file1
       ∧ dataJsonFile (H := host) "/out" "type" (item (post "a__b" "flat") "hash-2").2
         = inr file2
       ∧ filePath file1 = filePath file2).
Proof.
  destruct (idToFileName_injective_without_underscore (H := host))
    as (Hinj & Hall & Hsame).
  split; [|split].
  - by apply Hinj.
  - apply (Hall {| DataCache.cacheItemsMap := collidingItems |} "/out" generation).
    repeat constructor; by eexists.
  - eexists _, _. split; [reflexivity|]. split; [reflexivity|].
    by eapply (Hsame "/out" "type" (item (post "a/b" "nested") "hash-1").2
                     (item (post "a__b" "flat") "hash-2").2).
Defined.

(** Two identifiers with one file name; both documents are planned at the
    same path and the pass succeeds. *)
Lemma idToFileName_collision_not_flagged :
  "a/b" ≠ "a__b"
  ∧ idToFileName "a/b" = idToFileName "a__b"
  ∧ "1" ≠ "_1"
  ∧ idToFileName "1" = idToFileName "_1"
  ∧ dataPaths (dataJsonFiles (H := host) {| DataCache.cacheItemsMap := collidingItems |}
                             "/out" generation)
    = ["/out/data/Post/a__b.json"; "/out/data/Post/a__b.json"]
  ∧ (pass collidingItems start).1 = inr {| documentCount := 2 |}.
Proof. by vm_compute. Qed.

Lemma singleton_without_document_fails_the_pass_witness :
  settingsType ∈ map snd (documentTypeDefMap settings)
  ∧ isSingleton settingsType = true
  ∧ plannedFiles (H := host) (params settings "/out" firstItems)
    = inl (TypeError "Cannot read properties of undefined (reading 'replace')")
  ∧ generateForCache (H := host) inOrder (params settings "/out" firstItems) start
    = (inl (UnknownFSError
              (TypeError "Cannot read properties of undefined (reading 'replace')")),
       start).
Proof.
  assert (settingsType ∈ map snd (documentTypeDefMap settings)) as Hin by by left.
  split; [done|]. split; [done|].
  destruct (singleton_without_document_fails_the_pass (H := host) inOrder
              (params settings "/out" firstItems) start settingsType)
    as (Hplan & error & Hpass & _ & Herror & Hoff); [done|done| |].
  { by repeat constructor. }
  split; [done|]. rewrite Hpass.
  destruct Hoff as [Hok ->]; [done|]. by rewrite (Herror Hok).
Defined.


Lemma hash_recorded_only_after_successful_write_witness :
  fileIsUpToDate (writtenFilesCache start) (fileOf "/ro/data/Post/a.json" "{}" "hash-a")
  = false
  ∧ (writeFileWithWrittenFilesCache (fileOf "/ro/data/Post/a.json" "{}" "hash-a") start).1
    = inl (SystemError "EROFS")
  ∧ writtenFilesCache
      (writeFileWithWrittenFilesCache (fileOf "/ro/data/Post/a.json" "{}" "hash-a") start).2
    = writtenFilesCache start
  ∧ (writeFileWithWrittenFilesCache (fileOf "/out/data/Post/a.json" "{}" "hash-a") start).1
    = inr ()
  ∧ writtenFilesCache
      (writeFileWithWrittenFilesCache (fileOf "/out/data/Post/a.json" "{}" "hash-a") start).2
    = <["/out/data/Post/a.json" := "hash-a"]> (writtenFilesCache start).
Proof.
  split; [done|]. split; [done|]. split.
  - destruct (hash_recorded_only_after_successful_write (H := host)
                (fileOf "/ro/data/Post/a.json" "{}" "hash-a") "hash-a" start
                (inl (SystemError "EROFS"))
                (writeFileWithWrittenFilesCache
                   (fileOf "/ro/data/Post/a.json" "{}" "hash-a") start).2)
      as (_ & _ & Hfailed & _); [done..|].
    by destruct (Hfailed (SystemError "EROFS")).
  - split; [done|].
    destruct (hash_recorded_only_after_successful_write (H := host)
                (fileOf "/out/data/Post/a.json" "{}" "hash-a") "hash-a" start
                (inr ())
                (writeFileWithWrittenFilesCache
                   (fileOf "/out/data/Post/a.json" "{}" "hash-a") start).2)
      as (_ & _ & _ & _ & Hrecorded); [done..|].
    by rewrite Hrecorded.
Defined.

Lemma documentCount_is_number_of_cache_items_witness :
  pass firstItems start = (inr {| documentCount := 2 |}, firstWorld)
  ∧ documentCount {| documentCount := 2 |} = length firstItems
  ∧ ∃ fetched cache,
      fetchedStream !! 2%nat = Some fetched
      ∧ fetchedCache fetched = inr cache
      ∧ documentCount {| documentCount := 2 |} = length (DataCache.cacheItemsMap cache).
Proof.
  destruct (documentCount_is_number_of_cache_items (H := host)) as [Hpass Hstream].
  assert (pass firstItems start = (inr {| documentCount := 2 |}, firstWorld)) as Hrun
    by by vm_compute.
  split; [done|]. split.
  - apply (Hpass inOrder (params posts "/out" firstItems) start _ firstWorld Hrun).
  - apply (Hstream (inr (posts, "/out")) generation fetchedStream
                   (∅ : gmap string string) 2%nat).
    by vm_compute.
Defined.

Lemma empty_hash_is_never_recorded_witness :
  hashesAreTruthy (writtenFilesCache (pass unhashedItems start).2)
  ∧ hashesAreTruthy
      (writtenFilesCache
         (writeFileWithWrittenFilesCache (fileOf "/out/data/Post/b.json" "{}" "hash-b")
                                         (pass unhashedItems start).2).2)
  ∧ (pass unhashedItems (pass unhashedItems start).2).1 = inr {| documentCount := 1 |}
  ∧ writtenFilesCache
      (writeFileWithWrittenFilesCache (fileOf "/out/data/Post/a.json" "{}" "")
                                      (pass unhashedItems start).2).2
    = writtenFilesCache (pass unhashedItems start).2
  ∧ writeCall (plannedAt (params posts "/out" unhashedItems) "/out/data/Post/a.json")
    ∈ callsSince (pass unhashedItems start).2
                 (pass unhashedItems (pass unhashedItems start).2).2.
Proof.
  destruct (empty_hash_is_never_recorded (H := host))
    as (Hstream & Hkept & Hcall & Hpass).
  assert (hashesAreTruthy (writtenFilesCache (pass unhashedItems start).2)) as Htruthy.
  { apply (Hstream (inr (posts, "/out")) generation
                   [ {| fetchedCache := inr (cacheOf unhashedItems);
                        schedule := inOrder |} ]
                   (∅ : gmap string string)). }
  split; [done|]. split; [by apply Hkept|]. split; [by vm_compute|]. split.
  - by apply Hcall.
  - destruct (Hpass inOrder (params posts "/out" unhashedItems)
                    (pass unhashedItems start).2
                    (inr {| documentCount := 1 |})
                    (pass unhashedItems (pass unhashedItems start).2).2
                    (planned (params posts "/out" unhashedItems))
                    (plannedAt (params posts "/out" unhashedItems) "/out/data/Post/a.json"))
      as [Hwritten|[[e He] _]]; try done; try by_evaluation.
    apply list_elem_of_In. vm_compute. do 6 right. by left.
Defined.

(** A post with the empty hash is written again by every pass. *)
Example empty_hash_written_by_every_pass :
  writtenFilesCache (pass unhashedItems start).2 !! "/out/data/Post/a.json" = None
  ∧ writesTo "/out/data/Post/a.json"
             (callsSince (pass unhashedItems start).2
                         (pass unhashedItems (pass unhashedItems start).2).2)
    = 1%nat.
Proof. by vm_compute. Qed.

Lemma one_data_file_per_cache_item_witness :
  Forall (λ item, is_Some (typeNameOf "type" (DataCache.document item)))
         (map snd strayItems)
  ∧ dataPaths (dataJsonFiles (H := host) (cacheOf strayItems) "/out" generation)
    = ["/out/data/Note/notes__x.json"]
  ∧ ∃ jsons,
      dataJsonFiles (H := host) (cacheOf strayItems) "/out" generation = inr jsons
      ∧ length jsons = 1%nat
      ∧ ∀ schemaDef barrels,
          dataBarrelFiles (H := host) schemaDef (cacheOf strayItems) "/out" generation
          = inr barrels →
          filesToWrite (H := host) schemaDef (cacheOf strayItems) "/out" generation
          = inr (staticFiles (H := host) schemaDef "/out" generation ++ barrels ++ jsons).
Proof.
  assert (Forall (λ item, is_Some (typeNameOf "type" (DataCache.document item)))
                 (map snd strayItems)) as Hstrings.
  { repeat constructor. by eexists. }
  split; [done|]. split; [by vm_compute|].
  destruct (one_data_file_per_cache_item (H := host) (cacheOf strayItems) "/out"
              generation Hstrings) as (jsons & Hjsons & Hlength & _ & Hplan).
  by exists jsons.
Defined.

End Runs.

(** ** More on the file names *)

Lemma replaceSlashes_id str : hasChar "/" str = false → replaceSlashes str = str.
Proof.
  induction str as [|c rest IH]; [done|].
  intros [Hc Hrest]%hasChar_cons. rewrite replaceSlashes_other by done.
  by rewrite IH.
Qed.

Lemma replaceSlashes_length str :
  String.length (replaceSlashes str) = (String.length str + countChar "/" str)%nat.
Proof.
  induction str as [|c rest IH]; [done|]. simpl countChar.
  destruct (decide (c = "/"%char)) as [->|Hc].
  - rewrite replaceSlashes_slash. simpl. rewrite IH. lia.
  - rewrite replaceSlashes_other by done. simpl. rewrite IH. lia.
Qed.

Lemma idToFileName_no_leading_digit id : startsWithNumber (idToFileName id) = false.
Proof.
  destruct (startsWithNumber id) eqn:Hd.
  - destruct id as [|c rest]; [done|]. simpl in Hd. by rewrite idToFileName_digit.
  - rewrite idToFileName_no_digit by done.
    destruct id as [|c rest]; [done|]. simpl in Hd.
    destruct (decide (c = "/"%char)) as [->|Hc].
    + by rewrite replaceSlashes_slash.
    + by rewrite replaceSlashes_other.
Qed.

(** X1: the name made of an identifier never begins with a digit, and it
    begins with an underscore exactly when the identifier begins with a
    digit, with a slash or with an underscore. *)
Theorem idToFileName_never_starts_with_number :
  ∀ id,
    startsWithNumber (idToFileName id) = false
    ∧ startsWithChar "_" (idToFileName id)
      = startsWithNumber id || startsWithChar "/" id || startsWithChar "_" id.
Proof.
  intros id. split; [apply idToFileName_no_leading_digit|].
  destruct id as [|c rest]; [done|].
  destruct (isDigit c) eqn:Hd.
  - rewrite idToFileName_digit by done. simpl. by rewrite Hd.
  - rewrite idToFileName_no_digit by done. simpl. rewrite Hd. simpl.
    destruct (decide (c = "/"%char)) as [->|Hc]; [done|].
    simpl. by rewrite (bool_decide_eq_false_2 (c = "/"%char)).
Qed.

(** X2: the identifiers that are their own file name are those that have no
    slash and do not begin with a digit; every file name is one of them, so
    that escaping a second time changes nothing. *)
Theorem idToFileName_fixed_points :
  (∀ id, idToFileName id = id ↔ hasChar "/" id = false ∧ startsWithNumber id = false)
  ∧ (∀ id, idToFileName (idToFileName id) = idToFileName id).
Proof.
  assert (∀ id, hasChar "/" id = false ∧ startsWithNumber id = false →
                idToFileName id = id) as Hfixed.
  { intros id [Hslash Hdigit]. rewrite idToFileName_no_digit by done.
    by apply replaceSlashes_id. }
  split.
  - intros id. split; [|apply Hfixed]. intros Heq. split.
    + rewrite <- Heq. apply replaceSlashes_no_slash.
    + rewrite <- Heq. apply idToFileName_no_leading_digit.
  - intros id. apply Hfixed. split.
    + apply replaceSlashes_no_slash.
    + apply idToFileName_no_leading_digit.
Qed.

(** X3: a file name is as long as its identifier, plus one for every slash
    of the identifier, plus one when the identifier begins with a digit. *)
Theorem idToFileName_length :
  ∀ id,
    String.length (idToFileName id)
    = (String.length id + countChar "/" id + (if startsWithNumber id then 1 else 0))%nat.
Proof.
  intros id. destruct (startsWithNumber id) eqn:Hd.
  - destruct id as [|c rest]; [done|]. simpl in Hd.
    rewrite idToFileName_digit by done. simpl.
    rewrite decide_False by by apply isDigit_not_slash.
    rewrite replaceSlashes_length. lia.
  - rewrite idToFileName_no_digit by done. rewrite replaceSlashes_length. lia.
Qed.

(** ** More on the plan *)

Lemma documentIdsOfType_app typeNameField docDef docs more :
  documentIdsOfType typeNameField docDef (docs ++ more)
  = documentIdsOfType typeNameField docDef docs
    ++ documentIdsOfType typeNameField docDef more.
Proof. unfold documentIdsOfType. by rewrite List.filter_app, List.map_app. Qed.

Lemma documentIdsOfType_keys typeNameField docDef docs1 docs2 :
  map (documentKey typeNameField) docs1 = map (documentKey typeNameField) docs2 →
  documentIdsOfType typeNameField docDef docs1
  = documentIdsOfType typeNameField docDef docs2.
Proof.
  revert docs2. induction docs1 as [|d1 docs1 IH]; intros [|d2 docs2] Hkeys; try done.
  simpl in Hkeys. injection Hkeys as Hid Hty Hrest.
  rewrite !documentIdsOfType_cons, Hid, Hty. by rewrite (IH docs2).
Qed.

Lemma mapThrows_ext {A B} (f g : A → Throws B) l :
  (∀ x, f x = g x) → mapThrows f l = mapThrows g l.
Proof.
  intros Hfg. induction l as [|x l IH]; [done|].
  by rewrite !mapThrows_cons, Hfg, IH.
Qed.

Lemma mapThrows_inr_all {A B} (f : A → Throws B) l ys :
  mapThrows f l = inr ys → Forall (λ x, ∃ y, f x = inr y) l.
Proof.
  intros Hys%mapThrows_inr. induction Hys; constructor; eauto.
Qed.

Lemma mapThrows_length {A B} (f : A → Throws B) l ys :
  mapThrows f l = inr ys → length ys = length l.
Proof. intros Hys%mapThrows_inr. symmetry. by eapply Forall2_length. Qed.

Section MorePlanning.
Context `{Host}.

(** X4: the barrel of a singleton type re-exports the first document of the
    type, in the order of the data cache, and reads no other: documents that
    follow in the cache leave the barrel as it is. *)
Theorem singleton_barrel_reads_first_document :
  ∀ targetPath typeNameField docDef docs more,
    isSingleton docDef = true →
    documentIdsOfType typeNameField docDef docs ≠ [] →
    dataBarrelFile targetPath typeNameField (docs ++ more) docDef
    = dataBarrelFile targetPath typeNameField docs docDef
    ∧ ∃ documentId rest,
        documentIdsOfType typeNameField docDef docs = documentId :: rest
        ∧ dataBarrelFile targetPath typeNameField docs docDef
          = inr {| filePath := path_join [targetPath; "data";
                                          getDataVariableName docDef +:+ ".mjs"];
                   content :=
                     "// " +:+ autogeneratedNote +:+ newline
                     +:+ "export { default as " +:+ getDataVariableName docDef
                     +:+ " } from './" +:+ name docDef +:+ "/"
                     +:+ idToFileName documentId +:+ ".json'" +:+ newline;
                   documentHash := None |}.
Proof.
  intros targetPath typeNameField docDef docs more Hsingle Hsome.
  destruct (documentIdsOfType typeNameField docDef docs) as [|documentId rest] eqn:Hids;
    [done|].
  unfold dataBarrelFile. rewrite documentIdsOfType_app, Hids.
  unfold makeDataExportFile. rewrite Hsingle. simpl. split; [done|].
  by exists documentId, rest.
Qed.

(** X5: there is a plan exactly when every singleton type of the schema has
    a document and the type field of every document holds a string; the plan
    then has the five static files, a barrel for every type and a data file
    for every cache item. *)
Theorem plan_exists_iff :
  ∀ schemaDef cache targetPath generationOptions,
    ((∃ files, filesToWrite schemaDef cache targetPath generationOptions = inr files)
     ↔ Forall (λ docDef,
                 isSingleton docDef = true →
                 documentIdsOfType (typeFieldName (fieldOptions (options generationOptions)))
                   docDef (map DataCache.document (map snd (DataCache.cacheItemsMap cache)))
                 ≠ [])
              (map snd (documentTypeDefMap schemaDef))
       ∧ Forall (λ item,
                   is_Some (typeNameOf (typeFieldName (fieldOptions (options generationOptions)))
                                       (DataCache.document item)))
                (map snd (DataCache.cacheItemsMap cache)))
    ∧ (∀ files,
         filesToWrite schemaDef cache targetPath generationOptions = inr files →
         length files
         = (5 + length (documentTypeDefMap schemaDef)
              + length (DataCache.cacheItemsMap cache))%nat).
Proof.
  intros schemaDef cache targetPath generationOptions. split; [split|].
  - intros [files Hfiles]. unfold filesToWrite in Hfiles.
    destruct (dataBarrelFiles _ _ _ _) as [e|barrels] eqn:Hb; [done|].
    destruct (dataJsonFiles _ _ _) as [e|jsons] eqn:Hj; [done|].
    split.
    + unfold dataBarrelFiles in Hb. apply mapThrows_inr_all in Hb.
      eapply Forall_impl; [exact Hb|]. simpl.
      intros docDef [file Hfile] Hsingle Hnone. unfold dataBarrelFile in Hfile.
      by rewrite Hnone, makeDataExportFile_empty_singleton in Hfile.
    + unfold dataJsonFiles in Hj. apply mapThrows_inr_all in Hj.
      eapply Forall_impl; [exact Hj|]. simpl.
      intros item [file Hfile]. apply dataJsonFile_inr in Hfile as [typeName ->].
      by eexists.
  - intros [Hsingletons Hstrings]. unfold filesToWrite.
    destruct (mapThrows_all_inr
                (dataBarrelFile targetPath
                   (typeFieldName (fieldOptions (options generationOptions)))
                   (map DataCache.document (map snd (DataCache.cacheItemsMap cache))))
                (map snd (documentTypeDefMap schemaDef))) as [barrels Hb].
    { intros docDef Hin. rewrite Forall_forall in Hsingletons.
      unfold dataBarrelFile.
      destruct (makeDataExportFile docDef _) as [e|text] eqn:Hexp; [|by eexists].
      apply makeDataExportFile_inl in Hexp as (Hsingle & Hnone & _).
      by destruct (Hsingletons docDef Hin Hsingle). }
    destruct (dataJsonFiles_total cache targetPath generationOptions) as [jsons Hj].
    { intros item Hin. by apply (proj1 (Forall_forall _ _) Hstrings). }
    unfold dataBarrelFiles. rewrite Hb, Hj. by eexists.
  - intros files. unfold filesToWrite.
    destruct (dataBarrelFiles _ _ _ _) as [e|barrels] eqn:Hb; [done|].
    destruct (dataJsonFiles _ _ _) as [e|jsons] eqn:Hj; [done|].
    intros [= <-]. unfold dataBarrelFiles in Hb. unfold dataJsonFiles in Hj.
    apply mapThrows_length in Hb, Hj. rewrite !length_map in Hb, Hj.
    unfold staticFiles. simpl. rewrite length_app, Hb, Hj. lia.
Qed.

(** X6: the barrels read nothing of the documents but their identifiers and
    the values of their type fields: two data caches that agree on these, in
    their order, have the same barrels, whatever the other fields and the
    hashes are. *)
Theorem barrels_depend_on_identifiers_and_types :
  ∀ schemaDef cache1 cache2 targetPath generationOptions,
    map (documentKey (typeFieldName (fieldOptions (options generationOptions))))
        (map DataCache.document (map snd (DataCache.cacheItemsMap cache1)))
    = map (documentKey (typeFieldName (fieldOptions (options generationOptions))))
          (map DataCache.document (map snd (DataCache.cacheItemsMap cache2))) →
    dataBarrelFiles schemaDef cache1 targetPath generationOptions
    = dataBarrelFiles schemaDef cache2 targetPath generationOptions.
Proof.
  intros schemaDef cache1 cache2 targetPath generationOptions Hkeys.
  unfold dataBarrelFiles. apply mapThrows_ext. intros docDef.
  unfold dataBarrelFile. by rewrite (documentIdsOfType_keys _ _ _ _ Hkeys).
Qed.

End MorePlanning.

(** ** More on the writer and the passes *)

Section MoreWriting.
Context `{Host}.

Lemma recorded_lookup_at cache file :
  recorded cache file !! filePath file
  = match documentHash file with
    | Some hash => if isTruthy hash then Some hash else cache !! filePath file
    | None => cache !! filePath file
    end.
Proof.
  unfold recorded. destruct (documentHash file) as [hash|]; [|done].
  destruct (isTruthy hash); [|done]. by rewrite lookup_insert_eq.
Qed.

Lemma recorded_lookup_congr cache cache' file path :
  cache !! path = cache' !! path →
  recorded cache file !! path = recorded cache' file !! path.
Proof.
  intros Hc. destruct (decide (filePath file = path)) as [<-|Hne].
  - rewrite !recorded_lookup_at. destruct (documentHash file) as [hash|]; [|done].
    by destruct (isTruthy hash).
  - by rewrite !recorded_lookup_other.
Qed.

Lemma foldl_recorded_single path cache files file :
  filesAt path files = [file] →
  foldl recorded cache files !! path = recorded cache file !! path.
Proof.
  revert cache. induction files as [|file' files IH]; intros cache Hone; [done|].
  simpl. unfold filesAt in Hone. simpl in Hone. case_bool_decide as Hpath.
  - injection Hone as -> Hnil. by rewrite foldl_recorded_other.
  - rewrite IH by done. apply recorded_lookup_congr. by apply recorded_lookup_other.
Qed.

Lemma filesAt_NoDup_cases path files :
  NoDup (map filePath files) →
  filesAt path files = [] ∨ ∃ file, filesAt path files = [file].
Proof.
  induction files as [|file files IH]; [by left|].
  simpl. intros [Hfresh Hrest]%NoDup_cons. unfold filesAt. simpl.
  case_bool_decide as Hpath.
  - right. exists file. f_equal.
    destruct (List.filter _ files) as [|other others] eqn:Hothers; [done|].
    assert (other ∈ filesAt path files) as Hin by (unfold filesAt; rewrite Hothers; left).
    apply filesAt_elem in Hin as [Hin Hother]. destruct Hfresh.
    rewrite Hpath, <- Hother. apply list_elem_of_In, List.in_map. by apply list_elem_of_In.
  - by apply IH.
Qed.


(** With pairwise distinct paths, the order in which the hashes are recorded
    does not matter. *)
Lemma foldl_recorded_Permutation cache files files' :
  NoDup (map filePath files) → files ≡ₚ files' →
  foldl recorded cache files = foldl recorded cache files'.
Proof.
  intros Hnodup Hperm. apply map_eq. intros path.
  pose proof (filesAt_Permutation path _ _ Hperm) as Hat.
  destruct (filesAt_NoDup_cases path files Hnodup) as [Hnil|[file Hone]].
  - rewrite Hnil in Hat. symmetry in Hat. apply Permutation_nil_r in Hat.
    by rewrite !foldl_recorded_other.
  - rewrite Hone in Hat. symmetry in Hat. apply Permutation_singleton_r in Hat.
    by rewrite (foldl_recorded_single _ _ _ _ Hone), (foldl_recorded_single _ _ _ _ Hat).
Qed.

Lemma startedWrites_elem cache files file :
  file ∈ startedWrites cache files ↔ file ∈ files ∧ fileIsUpToDate cache file = false.
Proof.
  unfold startedWrites. rewrite !list_elem_of_In, List.filter_In, negb_true_iff. done.
Qed.


(** *** The outcome of the calls settled together *)

Lemma settle_mkdirs_error dirs w e :
  (settle (map mkdir dirs) w).1 = Some e → codeIsNotEEXIST e = true.
Proof.
  revert w. induction dirs as [|dir dirs IH]; intros w; simpl; [done|].
  unfold mkdir at 1. destruct (fs_mkdir dir w) as [[e'|[]] w1].
  - destruct (codeIsNotEEXIST e') eqn:Hcode.
    + destruct (settle _ w1) as [r' w2]. simpl. by intros [= <-].
    + specialize (IH w1). destruct (settle _ w1) as [r' w2]. simpl in *. apply IH.
  - specialize (IH w1). destruct (settle _ w1) as [r' w2]. simpl in *. apply IH.
Qed.

Lemma settle_mkdirs_ok dirs w :
  (∀ dir files e, (fsPromise_mkdir dir files).2 = Some e → e = SystemError "EEXIST") →
  (settle (map mkdir dirs) w).1 = None.
Proof.
  intros Hhost. revert w. induction dirs as [|dir dirs IH]; intros w; simpl; [done|].
  assert ((mkdir dir w).1 = inr ()) as Hok.
  { unfold mkdir, fs_mkdir. specialize (Hhost dir (disk w)).
    destruct (fsPromise_mkdir dir (disk w)) as [disk' [e|]]; simpl in *; [|done].
    by rewrite (Hhost e eq_refl). }
  destruct (mkdir dir w) as [r w1]. simpl in Hok. subst r.
  specialize (IH w1). by destruct (settle _ w1) as [r' w2].
Qed.

Lemma settle_writes_ok files w :
  (∀ path text disk, (fsPromise_writeFile path text disk).2 = None) →
  (settle (map writeThenRecord files) w).1 = None.
Proof.
  intros Hhost. revert w. induction files as [|file files IH]; intros w; simpl; [done|].
  assert ((writeThenRecord file w).1 = inr ()) as Hok.
  { unfold writeThenRecord, bind, fs_writeFile.
    specialize (Hhost (filePath file) (content file) (disk w)).
    destruct (fsPromise_writeFile _ _ (disk w)) as [disk' [e|]]; simpl in *; [done|].
    by rewrite recordWrittenFile_world. }
  destruct (writeThenRecord file w) as [r w1]. simpl in Hok. subst r.
  specialize (IH w1). by destruct (settle _ w1) as [r' w2].
Qed.

(** *** The course of a pass *)

Lemma debugDump_off params w : CL_DEBUG = false → debugDump params w = (inr (), w).
Proof. unfold debugDump. by intros ->. Qed.

(** The steps of a pass, one after the other. *)
Lemma writeFilesForCache__steps schedule params w :
  let dirs := withPrefix (targetPath params) ["types"]
              :: dataDirPaths (schemaDef params) (targetPath params) in
  let wd := (debugDump params w).2 in
  let wm := (Promise_all (mkdirOrder schedule) (map mkdir dirs) wd).2 in
  writeFilesForCache_ schedule params w =
    match (debugDump params w).1 with
    | inl e => (inl e, wd)
    | inr _ =>
        match plannedFiles params with
        | inl e => (inl e, wd)
        | inr files =>
            match (Promise_all (mkdirOrder schedule) (map mkdir dirs) wd).1 with
            | inl e => (inl e, wm)
            | inr _ => writeAll (writeOrder schedule) files wm
            end
        end
    end.
Proof.
  simpl. unfold writeFilesForCache_, bind, liftThrows. fold (plannedFiles params).
  destruct (debugDump params w) as [[e|[]] wd]; simpl; [done|].
  destruct (plannedFiles params) as [e|files]; [done|].
  by destruct (Promise_all _ _ wd) as [[e|[]] wm].
Qed.

Lemma Promise_all_mkdirs order dirs w :
  ∃ made,
    made ≡ₚ dirs
    ∧ journal (Promise_all order (map mkdir dirs) w).2 = journal w ++ map Mkdir made
    ∧ writtenFilesCache (Promise_all order (map mkdir dirs) w).2 = writtenFilesCache w
    ∧ (∀ e, (Promise_all order (map mkdir dirs) w).1 = inl e → codeIsNotEEXIST e = true)
    ∧ ((∀ dir files e, (fsPromise_mkdir dir files).2 = Some e → e = SystemError "EEXIST") →
       (Promise_all order (map mkdir dirs) w).1 = inr ()).
Proof.
  unfold Promise_all. rewrite length_map, completionOrder_map.
  set (made := completionOrder (length dirs) order dirs).
  exists made. split; [apply completionOrder_Permutation|].
  pose proof (settle_mkdirs made w) as [Hc Hj].
  pose proof (settle_mkdirs_error made w) as He.
  pose proof (settle_mkdirs_ok made w) as Hok.
  destruct (settle (map mkdir made) w) as [r w']. simpl in *.
  split; [done|]. split; [done|]. split.
  - intros e. destruct r as [e'|]; [|done]. intros [= <-]. by apply He.
  - intros Hhost. by rewrite (Hok Hhost).
Qed.

End MoreWriting.

Section MorePasses.
Context `{Host}.

(** X7: after a call that succeeded for a file with a hash that is not
    empty, the cache holds the hash at the path, and the same call made
    again does nothing. *)
Theorem repeated_call_is_skipped :
  ∀ file hash w w',
    documentHash file = Some hash → hash ≠ "" →
    writeFileWithWrittenFilesCache file w = (inr (), w') →
    writtenFilesCache w' !! filePath file = Some hash
    ∧ writeFileWithWrittenFilesCache file w' = (inr (), w').
Proof.
  intros file hash w w' Hhash Hne Hcall.
  assert (writtenFilesCache w' !! filePath file = Some hash) as Hfound.
  { destruct (fileIsUpToDate (writtenFilesCache w) file) eqn:Hup.
    - rewrite writeFile_up_to_date in Hcall by done. injection Hcall as <-.
      rewrite (fileIsUpToDate_hash _ _ _ Hhash) in Hup. by apply bool_decide_eq_true in Hup.
    - rewrite writeFile_out_of_date in Hcall by done.
      apply writeThenRecord_world in Hcall as [_ ->].
      by apply recorded_lookup_truthy. }
  split; [done|]. apply writeFile_up_to_date.
  rewrite (fileIsUpToDate_hash _ _ _ Hhash). by apply bool_decide_eq_true.
Qed.

(** X8: directories that exist already do no harm.  On a file system whose
    [mkdir] is rejected with [EEXIST] only and whose writes are not
    rejected, and without the debug dump, every pass that has a plan
    succeeds. *)
Theorem pass_succeeds_when_directories_exist :
  (∀ dir files e, (fsPromise_mkdir dir files).2 = Some e → e = SystemError "EEXIST") →
  (∀ path text files, (fsPromise_writeFile path text files).2 = None) →
  CL_DEBUG = false →
  ∀ schedule params w files,
    plannedFiles params = inr files →
    (generateForCache schedule params w).1
    = inr {| documentCount := length (DataCache.cacheItemsMap (cache params)) |}.
Proof.
  intros Hmkdir Hwrite Hoff schedule params w files Hplan.
  unfold generateForCache, writeFilesForCache.
  rewrite writeFilesForCache__steps, (debugDump_off _ _ Hoff), Hplan. cbn [fst snd].
  destruct (Promise_all_mkdirs (mkdirOrder schedule)
              (withPrefix (targetPath params) ["types"]
               :: dataDirPaths (schemaDef params) (targetPath params)) w)
    as (made & _ & _ & _ & _ & Hok).
  rewrite (Hok Hmkdir).
  unfold writeAll, Promise_all. rewrite length_map, completionOrder_map.
  match goal with |- context [settle (map writeThenRecord ?l) ?w0] =>
    pose proof (settle_writes_ok l w0 Hwrite) as Hsettled;
    destruct (settle (map writeThenRecord l) w0) as [r w']
  end.
  simpl in Hsettled. by subst r.
Qed.

(** X9: when the making of the directories fails, the pass fails with that
    error, which is not [EEXIST]; every directory has been asked for, no
    planned file has been written and the cache is as it was. *)
Theorem failed_mkdir_stops_the_pass :
  ∀ schedule params w files e,
    (debugDump params w).1 = inr () →
    plannedFiles params = inr files →
    (Promise_all (mkdirOrder schedule)
       (map mkdir (withPrefix (targetPath params) ["types"]
                   :: dataDirPaths (schemaDef params) (targetPath params)))
       (debugDump params w).2).1 = inl e →
    (generateForCache schedule params w).1 = inl (UnknownFSError e)
    ∧ codeIsNotEEXIST e = true
    ∧ writtenFilesCache (generateForCache schedule params w).2 = writtenFilesCache w
    ∧ ∃ made,
        made ≡ₚ withPrefix (targetPath params) ["types"]
                :: dataDirPaths (schemaDef params) (targetPath params)
        ∧ callsSince (debugDump params w).2 (generateForCache schedule params w).2
          = map Mkdir made.
Proof.
  intros schedule params w files e Hdump Hplan Hfailed.
  unfold generateForCache, writeFilesForCache.
  rewrite writeFilesForCache__steps, Hdump, Hplan, Hfailed. cbn [fst snd].
  destruct (Promise_all_mkdirs (mkdirOrder schedule)
              (withPrefix (targetPath params) ["types"]
               :: dataDirPaths (schemaDef params) (targetPath params))
              (debugDump params w).2)
    as (made & Hperm & Hj & Hc & Hcode & _).
  split; [done|]. split; [by apply Hcode|]. split.
  - rewrite Hc. destruct (debugDump params w) as [rd wd] eqn:Hd. simpl.
    by apply debugDump_world in Hd as [[-> _] _].
  - exists made. split; [done|]. by apply callsSince_app.
Qed.




(** X13: when the files that a pass has to write have pairwise distinct
    paths, the cache after the pass does not depend on the order in which
    the file system completes the calls: two successful runs of the pass
    from one world end with the same cache. *)
Theorem cache_does_not_depend_on_completion_order :
  ∀ schedule1 schedule2 params w info1 info2 w1 w2 files,
    generateForCache schedule1 params w = (inr info1, w1) →
    generateForCache schedule2 params w = (inr info2, w2) →
    plannedFiles params = inr files →
    NoDup (map filePath (startedWrites (writtenFilesCache w) files)) →
    writtenFilesCache w1 = writtenFilesCache w2.
Proof.
  intros schedule1 schedule2 params w info1 info2 w1 w2 files
    Hpass1 Hpass2 Hplan Hnodup.
  assert (∀ schedule info w',
            generateForCache schedule params w = (inr info, w') →
            writtenFilesCache w'
            = foldl recorded (writtenFilesCache w)
                    (startedWrites (writtenFilesCache w) files)) as Hcache.
  { intros schedule info w' Hpass. apply generateForCache_inr in Hpass as [Hrun _].
    destruct (writeFilesForCache__cases _ _ _ _ _ Hrun)
      as [(e & He & _)|(files' & wm & Hplan' & (Hc & _) & Hwrite)]; [done|].
    same_plan Hplan Hplan'.
    apply writeAll_world in Hwrite as (completed & Hperm & _ & Hfold & _).
    rewrite Hfold by done. rewrite Hc in *. symmetry.
    by apply foldl_recorded_Permutation. }
  by rewrite (Hcache _ _ _ Hpass1), (Hcache _ _ _ Hpass2).
Qed.

(** X17: the cache is keyed by the path, not by the document.  A planned
    file at a path for which the cache has no entry is written by every pass
    that gets to its writes, whatever its hash, also a hash that the cache
    holds at another path. *)
Theorem file_at_new_path_is_written :
  ∀ schedule params w outcome w' files file,
    generateForCache schedule params w = (outcome, w') →
    plannedFiles params = inr files →
    file ∈ files →
    writtenFilesCache w !! filePath file = None →
    writeCall file ∈ callsSince w w'
    ∨ ((∃ e, outcome = inl e) ∧ beforeWriting params w w').
Proof.
  intros schedule params w outcome w' files file Hpass Hplan Hin Hnone.
  apply generateForCache_cases in Hpass as (r & Hrun & ->).
  destruct (pass_writes_started _ _ _ _ _ _ file Hrun Hplan Hin)
    as [Hwritten|[[e ->] Hbefore]].
  - unfold fileIsUpToDate. destruct (documentHash file) as [hash|]; [|done].
    apply bool_decide_eq_false. by rewrite Hnone.
  - by left.
  - right. split; [by eexists|done].
Qed.

End MorePasses.

Section MoreStream.
Context `{Host}.

Lemma pass_extends_dump schedule params w :
  ∃ rest,
    callsSince w (generateForCache schedule params w).2
    = callsSince w (debugDump params w).2 ++ rest.
Proof.
  destruct (generateForCache_run schedule params w) as [r Hrun].
  rewrite writeFilesForCache__steps in Hrun.
  destruct (debugDump params w) as [rd wd] eqn:Hd.
  apply debugDump_world in Hd as [(_ & dump & Hjd & _) _]. simpl in *.
  rewrite (callsSince_app w wd dump) by done.
  assert (∀ w' rest, journal w' = journal wd ++ rest →
            callsSince w w' = dump ++ rest) as Hext.
  { intros w' rest Hj. apply callsSince_app. by rewrite Hj, Hjd, <- app_assoc. }
  destruct rd as [e|[]].
  { injection Hrun as _ <-. exists []. apply Hext. by rewrite app_nil_r. }
  destruct (plannedFiles params) as [e|files].
  { injection Hrun as _ <-. exists []. apply Hext. by rewrite app_nil_r. }
  destruct (Promise_all_mkdirs (mkdirOrder schedule)
              (withPrefix (targetPath params) ["types"]
               :: dataDirPaths (schemaDef params) (targetPath params)) wd)
    as (made & _ & Hjm & _).
  destruct (Promise_all _ _ wd) as [[e|[]] wm]; simpl in *.
  { injection Hrun as _ <-. exists (map Mkdir made). by apply Hext. }
  apply writeAll_world in Hrun as (written & _ & Hjw & _).
  exists (map Mkdir made ++ map writeCall written). apply Hext.
  by rewrite Hjw, Hjm, <- app_assoc.
Qed.

(** X16: whatever its outcome, a pass makes no call of the file system but
    these, in this order: the calls of the debug dump, [mkdir] for
    directories among [types] and the data directories of the types of the
    schema, and writes of planned files that the cache, as the pass found
    it, did not show up to date. *)
Theorem pass_makes_no_other_call :
  ∀ schedule params w,
    ∃ made written,
      callsSince w (generateForCache schedule params w).2
      = callsSince w (debugDump params w).2 ++ map Mkdir made ++ map writeCall written
      ∧ (∀ dir, dir ∈ made →
                dir ∈ withPrefix (targetPath params) ["types"]
                      :: dataDirPaths (schemaDef params) (targetPath params))
      ∧ (∀ file, file ∈ written →
                 ∃ files, plannedFiles params = inr files
                          ∧ file ∈ files
                          ∧ fileIsUpToDate (writtenFilesCache w) file = false).
Proof.
  intros schedule params w.
  destruct (generateForCache_run schedule params w) as [r Hrun].
  rewrite writeFilesForCache__steps in Hrun.
  destruct (debugDump params w) as [rd wd] eqn:Hd.
  apply debugDump_world in Hd as [(Hcd & dump & Hjd & _) _]. simpl in *.
  rewrite (callsSince_app w wd dump) by done.
  assert (∀ w' rest, journal w' = journal wd ++ rest →
            callsSince w w' = dump ++ rest) as Hext.
  { intros w' rest Hj. apply callsSince_app. by rewrite Hj, Hjd, <- app_assoc. }
  assert (∀ w', w' = wd →
            ∃ made written,
              callsSince w w' = dump ++ map Mkdir made ++ map writeCall written
              ∧ (∀ dir, dir ∈ made →
                        dir ∈ withPrefix (targetPath params) ["types"]
                              :: dataDirPaths (schemaDef params) (targetPath params))
              ∧ (∀ file, file ∈ written →
                         ∃ files, plannedFiles params = inr files
                                  ∧ file ∈ files
                                  ∧ fileIsUpToDate (writtenFilesCache w) file = false))
    as Hstopped.
  { intros w' ->. exists [], []. split; [apply Hext; by rewrite app_nil_r|].
    split; intros x Hx; by apply elem_of_nil in Hx. }
  destruct rd as [e|[]]; [injection Hrun as _ <-; by apply Hstopped|].
  destruct (plannedFiles params) as [e|files] eqn:Hplan;
    [injection Hrun as _ <-; by apply Hstopped|].
  destruct (Promise_all_mkdirs (mkdirOrder schedule)
              (withPrefix (targetPath params) ["types"]
               :: dataDirPaths (schemaDef params) (targetPath params)) wd)
    as (made & Hmade & Hjm & Hcm & _).
  destruct (Promise_all _ _ wd) as [[e|[]] wm]; simpl in *.
  - injection Hrun as _ <-. exists made, []. split; [apply Hext; by rewrite app_nil_r|].
    split; [intros dir; by rewrite Hmade|]. intros x Hx. by apply elem_of_nil in Hx.
  - apply writeAll_world in Hrun as (written & Hwritten & Hjw & _).
    exists made, written. split; [apply Hext; by rewrite Hjw, Hjm, <- app_assoc|].
    split; [intros dir; by rewrite Hmade|].
    intros file Hin. rewrite Hwritten, Hcm, Hcd in Hin.
    apply startedWrites_elem in Hin as [Hfile Hup]. by exists files.
Qed.

(** X14: with the debug dump, the first call of every pass makes the
    directory [cache].  When that [mkdir] is rejected, with whatever code,
    [EEXIST] too, the pass fails with the error after this one call and the
    cache is as it was.  When the dump succeeds it consists of that [mkdir]
    and of the writes of [schema.json] and [data-cache.json], made at every
    pass without the cache being read or changed, and the other calls of the
    pass follow it. *)
Theorem debug_dump_comes_first :
  CL_DEBUG = true →
  ∀ schedule params w,
    (∃ rest,
       callsSince w (generateForCache schedule params w).2
       = Mkdir (withPrefix (targetPath params) ["cache"]) :: rest)
    ∧ (∀ e,
         (fsPromise_mkdir (withPrefix (targetPath params) ["cache"]) (disk w)).2 = Some e →
         (generateForCache schedule params w).1 = inl (UnknownFSError e)
         ∧ callsSince w (generateForCache schedule params w).2
           = [Mkdir (withPrefix (targetPath params) ["cache"])]
         ∧ writtenFilesCache (generateForCache schedule params w).2 = writtenFilesCache w)
    ∧ ((debugDump params w).1 = inr () →
       writtenFilesCache (debugDump params w).2 = writtenFilesCache w
       ∧ ∃ rest,
           callsSince w (generateForCache schedule params w).2
           = [ Mkdir (withPrefix (targetPath params) ["cache"]);
               WriteFile (withPrefix (targetPath params) ["cache"; "schema.json"])
                         (JSON_stringify_schema (schemaDef params));
               WriteFile (withPrefix (targetPath params) ["cache"; "data-cache.json"])
                         (JSON_stringify_cache (cache params)) ]
             ++ rest).
Proof.
  intros Hon schedule params w.
  destruct (pass_extends_dump schedule params w) as [rest Hrest].
  assert (∃ dump,
            callsSince w (debugDump params w).2
            = Mkdir (withPrefix (targetPath params) ["cache"]) :: dump
            ∧ (∀ e, (fsPromise_mkdir (withPrefix (targetPath params) ["cache"])
                                     (disk w)).2 = Some e →
                    debugDump params w
                    = (inl e, (fs_mkdir (withPrefix (targetPath params) ["cache"]) w).2))
            ∧ ((debugDump params w).1 = inr () →
               dump = [ WriteFile (withPrefix (targetPath params) ["cache"; "schema.json"])
                                  (JSON_stringify_schema (schemaDef params));
                        WriteFile (withPrefix (targetPath params) ["cache"; "data-cache.json"])
                                  (JSON_stringify_cache (cache params)) ]))
    as (dump & Hdump & Hrejected & Hdone).
  { unfold debugDump. rewrite Hon. unfold bind.
    pose proof (fs_mkdir_world (withPrefix (targetPath params) ["cache"]) w) as [Hj1 _].
    assert (∀ e, (fsPromise_mkdir (withPrefix (targetPath params) ["cache"])
                                  (disk w)).2 = Some e →
                 (fs_mkdir (withPrefix (targetPath params) ["cache"]) w).1 = inl e) as Hr1.
    { intros e. unfold fs_mkdir. destruct (fsPromise_mkdir _ (disk w)) as [disk' r].
      simpl. by intros ->. }
    destruct (fs_mkdir _ w) as [[e1|[]] w1]; simpl in *.
    { exists []. split; [by apply callsSince_app|]. split; [|done].
      intros e He. specialize (Hr1 e He). by injection Hr1 as ->. }
    match goal with |- context [fs_writeFile ?p ?t w1] =>
      pose proof (fs_writeFile_world p t w1) as [Hj2 _];
      destruct (fs_writeFile p t w1) as [[e2|[]] w2]; simpl in *
    end.
    { eexists. split; [apply callsSince_app; by rewrite Hj2, Hj1, <- app_assoc|].
      split; [|done]. intros e He. by specialize (Hr1 e He). }
    match goal with |- context [fs_writeFile ?p ?t w2] =>
      pose proof (fs_writeFile_world p t w2) as [Hj3 _];
      destruct (fs_writeFile p t w2) as [r3 w3]; simpl in *
    end.
    eexists. split; [apply callsSince_app; by rewrite Hj3, Hj2, Hj1, <- !app_assoc|].
    split; [|done]. intros e He. by specialize (Hr1 e He). }
  split; [|split].
  - rewrite Hrest, Hdump. by eexists.
  - intros e He. specialize (Hrejected e He).
    unfold generateForCache, writeFilesForCache.
    rewrite writeFilesForCache__steps, Hrejected. cbn [fst snd].
    pose proof (fs_mkdir_world (withPrefix (targetPath params) ["cache"]) w) as [Hj Hc].
    split; [done|]. split; [by apply callsSince_app|done].
  - intros Hok. split.
    + destruct (debugDump params w) as [rd wd] eqn:Hd. simpl.
      by apply debugDump_world in Hd as [[-> _] _].
    + exists rest. by rewrite Hrest, Hdump, (Hdone Hok).
Qed.





End MoreStream.

(** ** More runs of the model *)

Section MoreRuns.
Import Demo.

Lemma idToFileName_fixed_points_witness :
  hasChar "/" "about.md" = false
  ∧ startsWithNumber "about.md" = false
  ∧ idToFileName "about.md" = "about.md"
  ∧ idToFileName (idToFileName "2024/b") = "_2024__b".
Proof.
  split; [done|]. split; [done|]. split.
  - by apply (proj1 idToFileName_fixed_points "about.md").
  - by rewrite (proj2 idToFileName_fixed_points "2024/b").
Defined.

Lemma singleton_barrel_reads_first_document_witness :
  documentIdsOfType "type" settingsType [Scenes.settingsMain] = ["settings/main"]
  ∧ dataBarrelFile (H := host) "/out" "type" [Scenes.settingsMain; Scenes.settingsOther]
                   settingsType
    = dataBarrelFile (H := host) "/out" "type" [Scenes.settingsMain] settingsType.
Proof.
  split; [done|].
  by apply (singleton_barrel_reads_first_document (H := host) "/out" "type" settingsType
              [Scenes.settingsMain] [Scenes.settingsOther]).
Defined.

Lemma plan_exists_iff_witness :
  (∃ files, filesToWrite (H := host) posts (cacheOf firstItems) "/out" generation = inr files)
  ∧ length (planned (params posts "/out" firstItems)) = 8%nat
  ∧ ¬ Forall (λ docDef,
                isSingleton docDef = true →
                documentIdsOfType "type" docDef (documentsOf firstItems) ≠ [])
             (map snd (documentTypeDefMap settings)).
Proof.
  destruct (plan_exists_iff (H := host) posts (cacheOf firstItems) "/out" generation)
    as [Hexists Hlength].
  destruct (plan_exists_iff (H := host) settings (cacheOf firstItems) "/out" generation)
    as [Hnone _].
  split; [|split].
  - apply Hexists. split.
    + by repeat constructor.
    + repeat constructor; by eexists.
  - by apply (Hlength (planned (params posts "/out" firstItems))).
  - intros Hsingletons. destruct (proj2 Hnone) as [files Hfiles]; [|done].
    split; [done|]. repeat constructor; by eexists.
Defined.

Lemma barrels_depend_on_identifiers_and_types_witness :
  map (documentKey "type") (documentsOf firstItems)
  = map (documentKey "type") (documentsOf secondItems)
  ∧ cacheOf firstItems ≠ cacheOf secondItems
  ∧ dataBarrelFiles (H := host) posts (cacheOf firstItems) "/out" generation
    = dataBarrelFiles (H := host) posts (cacheOf secondItems) "/out" generation.
Proof.
  split; [done|]. split; [done|].
  by apply (barrels_depend_on_identifiers_and_types (H := host)).
Defined.

Lemma repeated_call_is_skipped_witness :
  (writeFileWithWrittenFilesCache (fileOf "/out/data/Post/a.json" "{}" "hash-a") start).1
  = inr ()
  ∧ writeFileWithWrittenFilesCache (fileOf "/out/data/Post/a.json" "{}" "hash-a")
      (writeFileWithWrittenFilesCache (fileOf "/out/data/Post/a.json" "{}" "hash-a") start).2
    = (inr (),
       (writeFileWithWrittenFilesCache (fileOf "/out/data/Post/a.json" "{}" "hash-a")
                                       start).2).
Proof.
  split; [done|].
  by apply (repeated_call_is_skipped (H := host)
              (fileOf "/out/data/Post/a.json" "{}" "hash-a") "hash-a" start).
Defined.

Lemma pass_succeeds_when_directories_exist_witness :
  (fsPromise_mkdir (Host := Scenes.existing) "/out/types" ∅).2 = Some (SystemError "EEXIST")
  ∧ (Scenes.pass (Some (SystemError "EEXIST")) false firstItems).1
    = inr {| documentCount := 2 |}.
Proof.
  split; [done|].
  apply (pass_succeeds_when_directories_exist (H := Scenes.existing))
    with (files := match plannedFiles (H := Scenes.existing)
                           (params posts "/out" firstItems) with
                   | inr files => files
                   | inl _ => []
                   end); try done.
  intros dir files e. simpl. congruence.
Defined.

Lemma failed_mkdir_stops_the_pass_witness :
  (Scenes.pass (Some (SystemError "EACCES")) false firstItems).1
  = inl (UnknownFSError (SystemError "EACCES"))
  ∧ journal (Scenes.pass (Some (SystemError "EACCES")) false firstItems).2
    = [Mkdir "/out/types"; Mkdir "/out/data/Post"]
  ∧ writtenFilesCache (Scenes.pass (Some (SystemError "EACCES")) false firstItems).2 = ∅.
Proof.
  destruct (failed_mkdir_stops_the_pass (H := Scenes.locked) inOrder
              (params posts "/out" firstItems)
              (Scenes.start (Some (SystemError "EACCES")) false)
              (match plannedFiles (H := Scenes.locked) (params posts "/out" firstItems) with
               | inr files => files
               | inl _ => []
               end)
              (SystemError "EACCES"))
    as (Hfailed & _ & Hcache & _); [done..|].
  split; [exact Hfailed|]. split; [by vm_compute|exact Hcache].
Defined.




Lemma cache_does_not_depend_on_completion_order_witness :
  journal (generateForCache (H := host) Scenes.lastFirst
             (params posts "/out" firstItems) start).2
  ≠ journal firstWorld
  ∧ writtenFilesCache (generateForCache (H := host) Scenes.lastFirst
                         (params posts "/out" firstItems) start).2
    = writtenFilesCache firstWorld.
Proof.
  assert (NoDup (map filePath
                   (startedWrites (writtenFilesCache start)
                      (planned (params posts "/out" firstItems))))) as Hnodup
    by decided.
  assert (generateForCache (H := host) Scenes.lastFirst
            (params posts "/out" firstItems) start
          = (inr {| documentCount := 2 |},
             (generateForCache (H := host) Scenes.lastFirst
                (params posts "/out" firstItems) start).2)) as Hlast
    by evaluated.
  assert (generateForCache (H := host) inOrder (params posts "/out" firstItems) start
          = (inr {| documentCount := 2 |}, firstWorld)) as Hfirst
    by evaluated.
  assert (plannedFiles (H := host) (params posts "/out" firstItems)
          = inr (planned (params posts "/out" firstItems))) as Hplan
    by evaluated.
  split.
  - intros Hsame.
    assert (last (map (isWriteTo "/out/package.json")
                      (journal (generateForCache (H := host) Scenes.lastFirst
                                  (params posts "/out" firstItems) start).2))
            = Some true) as Hlast' by evaluated.
    rewrite Hsame in Hlast'.
    assert (last (map (isWriteTo "/out/package.json") (journal firstWorld)) = Some false)
      as Hfirst' by evaluated.
    rewrite Hfirst' in Hlast'. discriminate Hlast'.
  - exact (cache_does_not_depend_on_completion_order (H := host) Scenes.lastFirst inOrder
             (params posts "/out" firstItems) start
             {| documentCount := 2 |} {| documentCount := 2 |} _ _
             (planned (params posts "/out" firstItems)) Hlast Hfirst Hplan Hnodup).
Defined.

(** With a path shared by two files the cache does depend on the order. *)
Example cache_depends_on_completion_order_of_shared_path :
  writtenFilesCache (generateForCache (H := host) inOrder
                       (params posts "/out" collidingItems) start).2
  !! "/out/data/Post/a__b.json" = Some "hash-2"
  ∧ writtenFilesCache (generateForCache (H := host) Scenes.lastFirst
                         (params posts "/out" collidingItems) start).2
    !! "/out/data/Post/a__b.json" = Some "hash-1".
Proof. split; evaluated. Qed.

Lemma file_at_new_path_is_written_witness :
  writtenFilesCache firstWorld !! "/out/data/Post/a.json" = Some "hash-a"
  ∧ writtenFilesCache firstWorld !! "/out/data/Post/moved__a.json" = None
  ∧ documentHash (plannedAt (params posts "/out" Scenes.renamedItems)
                            "/out/data/Post/moved__a.json") = Some "hash-a"
  ∧ writeCall (plannedAt (params posts "/out" Scenes.renamedItems)
                         "/out/data/Post/moved__a.json")
    ∈ callsSince firstWorld (pass Scenes.renamedItems firstWorld).2.
Proof.
  assert (generateForCache (H := host) inOrder
            (params posts "/out" Scenes.renamedItems) firstWorld
          = (inr {| documentCount := 2 |}, (pass Scenes.renamedItems firstWorld).2))
    as Hpass by evaluated.
  assert (plannedFiles (H := host) (params posts "/out" Scenes.renamedItems)
          = inr (planned (params posts "/out" Scenes.renamedItems))) as Hplan
    by evaluated.
  assert (plannedAt (params posts "/out" Scenes.renamedItems)
                    "/out/data/Post/moved__a.json"
          ∈ planned (params posts "/out" Scenes.renamedItems)) as Hin.
  { apply list_elem_of_In. vm_compute. do 6 right. left. reflexivity. }
  assert (writtenFilesCache firstWorld
          !! filePath (plannedAt (params posts "/out" Scenes.renamedItems)
                                 "/out/data/Post/moved__a.json") = None) as Hnew
    by evaluated.
  split; [evaluated|]. split; [evaluated|]. split; [evaluated|].
  destruct (file_at_new_path_is_written (H := host) inOrder
              (params posts "/out" Scenes.renamedItems) firstWorld
              (inr {| documentCount := 2 |}) (pass Scenes.renamedItems firstWorld).2
              (planned (params posts "/out" Scenes.renamedItems))
              (plannedAt (params posts "/out" Scenes.renamedItems)
                         "/out/data/Post/moved__a.json")
              Hpass Hplan Hin Hnew)
    as [Hwritten|[[e He] _]]; [exact Hwritten|discriminate He].
Defined.

Lemma debug_dump_comes_first_witness :
  CL_DEBUG (Host := Scenes.debugging) = true
  ∧ (∃ rest,
       journal (Scenes.pass None true firstItems).2
       = [Mkdir "/out/cache"; WriteFile "/out/cache/schema.json" "{}";
          WriteFile "/out/cache/data-cache.json" "{}"] ++ rest)
  ∧ (Scenes.pass (Some (SystemError "EEXIST")) true firstItems).1
    = inl (UnknownFSError (SystemError "EEXIST"))
  ∧ journal (Scenes.pass (Some (SystemError "EEXIST")) true firstItems).2
    = [Mkdir "/out/cache"].
Proof.
  split; [done|]. split; [|split].
  - destruct (debug_dump_comes_first (H := Scenes.debugging) eq_refl inOrder
                (params posts "/out" firstItems) (Scenes.start None true))
      as (_ & _ & Hdump).
    destruct Hdump as [_ [rest Hrest]]; [done|]. by exists rest.
  - destruct (debug_dump_comes_first (H := Scenes.debuggingExisting) eq_refl inOrder
                (params posts "/out" firstItems)
                (Scenes.start (Some (SystemError "EEXIST")) true))
      as (_ & Hrejected & _).
    by destruct (Hrejected (SystemError "EEXIST")).
  - destruct (debug_dump_comes_first (H := Scenes.debuggingExisting) eq_refl inOrder
                (params posts "/out" firstItems)
                (Scenes.start (Some (SystemError "EEXIST")) true))
      as (_ & Hrejected & _).
    by destruct (Hrejected (SystemError "EEXIST")) as (_ & Hcalls & _).
Defined.


End MoreRuns.
